(** * career_chatbot: the account store, the conversation store and the
    context builder of [app.py], embedded in Rocq.

    The embedding follows [src/app.py]:
    - [DatabaseManager] (lines 102-175) becomes pure functions on a
      [database] value holding the two SQLite tables;
    - [CareerChatbot.get_response] (lines 183-190) and the Streamlit
      handlers (lines 213-277) live in a small state-and-exception monad
      over a [world] (database, session state, log of external effects);
    - [hashlib.sha256(..).hexdigest()] and [str.encode()] are the library
      functions the code calls; they are written out (FIPS 180-4, UTF-8)
      so that stored credentials can be computed on concrete inputs.

    Conventions.  A Python [str] is the list of its Unicode code points
    ([pystr]); a [bytes] value is a list of integers in [0, 256).  A
    string bound to an SQL parameter is sent as UTF-8: binding a string
    without a UTF-8 encoding raises [UnicodeEncodeError], which is
    modelled for the username of [create_user] and [authenticate_user].
    [save_chat] is modelled on the arguments the script gives it: the
    text of the input widget and of the model's reply, which have a
    UTF-8 encoding, and the rowid of the logged-in account.  SQLite
    rowids are unbounded integers (the 63-bit ceiling of a rowid is
    never approached by this program).  The page set-up, the style
    sheet and the hero banner at the top of the script (lines 23-97 and
    203-208) do not touch any state and are left out. *)

From Stdlib Require Import ZArith Lia List Bool Finite Sorted Permutation.
From stdpp Require Import gmap strings list.
Import ListNotations.

(** ** Python strings *)

Module PyStr.
Local Open Scope Z_scope.

(** A [str]: its code points, each in [0, 0x10FFFF]. *)
Definition pystr := list Z.

(** An ASCII literal of the source as a [pystr]. *)
Definition lit (s : string) : pystr :=
  map (fun a => Z.of_nat (Ascii.nat_of_ascii a)) (String.list_ascii_of_string s).

(** [str.isspace] on one character: the code points CPython classifies as
    whitespace. *)
Definition isspace (c : Z) : bool :=
  ((0x09 <=? c) && (c <=? 0x0D)) || ((0x1C <=? c) && (c <=? 0x20))
  || (c =? 0x85) || (c =? 0xA0) || (c =? 0x1680)
  || ((0x2000 <=? c) && (c <=? 0x200A))
  || (c =? 0x2028) || (c =? 0x2029) || (c =? 0x202F) || (c =? 0x205F)
  || (c =? 0x3000).

Fixpoint lstrip (s : pystr) : pystr :=
  match s with
  | c :: r => if isspace c then lstrip r else s
  | [] => []
  end.

Definition rstrip (s : pystr) : pystr := rev (lstrip (rev s)).

(** [s.strip()] with no argument. *)
Definition strip (s : pystr) : pystr := rstrip (lstrip s).

(** Truthiness of a [str]: non-empty. *)
Definition truthy (s : pystr) : bool :=
  match s with [] => false | _ :: _ => true end.

(** UTF-8 encoding of one code point; [None] where [str.encode] raises
    [UnicodeEncodeError] (a surrogate) or the value is no code point. *)
Definition encode_char (c : Z) : option (list Z) :=
  if c <? 0 then None
  else if c <? 0x80 then Some [c]
  else if c <? 0x800 then Some [0xC0 + c / 64; 0x80 + c mod 64]
  else if (0xD800 <=? c) && (c <=? 0xDFFF) then None
  else if c <? 0x10000 then
    Some [0xE0 + c / 4096; 0x80 + (c / 64) mod 64; 0x80 + c mod 64]
  else if c <? 0x110000 then
    Some [0xF0 + c / 262144; 0x80 + (c / 4096) mod 64;
          0x80 + (c / 64) mod 64; 0x80 + c mod 64]
  else None.

(** [s.encode()] (UTF-8, strict). *)
Fixpoint encode (s : pystr) : option (list Z) :=
  match s with
  | [] => Some []
  | c :: r =>
      match encode_char c, encode r with
      | Some bs, Some rest => Some (bs ++ rest)
      | _, _ => None
      end
  end.

(** [str(n)] for an [int]. *)
Definition digit_char (d : Z) : Z := 48 + d.

Fixpoint digits_of (fuel : nat) (n : Z) (acc : pystr) : pystr :=
  match fuel with
  | O => acc
  | S fuel' =>
      let acc' := digit_char (n mod 10) :: acc in
      if n / 10 =? 0 then acc' else digits_of fuel' (n / 10) acc'
  end.

Definition str_of_int (n : Z) : pystr :=
  if n <? 0 then 45 :: digits_of (S (Z.to_nat (Z.log2 (- n)))) (- n) []
  else digits_of (S (Z.to_nat (Z.log2 n))) n [].

End PyStr.

(** ** SHA-256 (FIPS 180-4), as [hashlib.sha256(data).hexdigest()] *)

Module Sha256.
Import PyStr.
Local Open Scope Z_scope.

Definition add32 (x y : Z) : Z := (x + y) mod 2 ^ 32.
Definition rotr (n x : Z) : Z :=
  Z.lor (Z.shiftr x n) (Z.shiftl x (32 - n) mod 2 ^ 32).
Definition shr (n x : Z) : Z := Z.shiftr x n.
Definition not32 (x : Z) : Z := Z.lxor x 0xffffffff.

Definition Ch (x y z : Z) : Z := Z.lxor (Z.land x y) (Z.land (not32 x) z).
Definition Maj (x y z : Z) : Z :=
  Z.lxor (Z.lxor (Z.land x y) (Z.land x z)) (Z.land y z).
Definition Sigma0 (x : Z) : Z := Z.lxor (Z.lxor (rotr 2 x) (rotr 13 x)) (rotr 22 x).
Definition Sigma1 (x : Z) : Z := Z.lxor (Z.lxor (rotr 6 x) (rotr 11 x)) (rotr 25 x).
Definition sigma0 (x : Z) : Z := Z.lxor (Z.lxor (rotr 7 x) (rotr 18 x)) (shr 3 x).
Definition sigma1 (x : Z) : Z := Z.lxor (Z.lxor (rotr 17 x) (rotr 19 x)) (shr 10 x).

(** The round constants: the first 32 bits of the fractional parts of the
    cube roots of the first 64 primes. *)
Definition K : list Z :=
  [
    1116352408; 1899447441; 3049323471; 3921009573; 961987163; 1508970993;
    2453635748; 2870763221; 3624381080; 310598401; 607225278; 1426881987;
    1925078388; 2162078206; 2614888103; 3248222580; 3835390401; 4022224774;
    264347078; 604807628; 770255983; 1249150122; 1555081692; 1996064986;
    2554220882; 2821834349; 2952996808; 3210313671; 3336571891; 3584528711;
    113926993; 338241895; 666307205; 773529912; 1294757372; 1396182291;
    1695183700; 1986661051; 2177026350; 2456956037; 2730485921; 2820302411;
    3259730800; 3345764771; 3516065817; 3600352804; 4094571909; 275423344;
    430227734; 506948616; 659060556; 883997877; 958139571; 1322822218;
    1537002063; 1747873779; 1955562222; 2024104815; 2227730452; 2361852424;
    2428436474; 2756734187; 3204031479; 3329325298 ].

(** The eight 32-bit words of a hash value (also the working variables
    a..h of one compression). *)
Record regs := Regs { ra : Z; rb : Z; rc : Z; rd : Z; re : Z; rf : Z; rg : Z; rh : Z }.

Definition H0 : regs :=
  Regs 0x6a09e667 0xbb67ae85 0x3c6ef372 0xa54ff53a
       0x510e527f 0x9b05688c 0x1f83d9ab 0x5be0cd19.

(** [n] as [len] big-endian bytes. *)
Fixpoint be_bytes (len : nat) (n : Z) : list Z :=
  match len with
  | O => []
  | S len' => (n / 256 ^ Z.of_nat len') mod 256 :: be_bytes len' n
  end.

(** Padding: a 1 bit, zeros up to 56 mod 64 bytes, the bit length on 64 bits. *)
Definition pad (msg : list Z) : list Z :=
  let l := Z.of_nat (length msg) in
  msg ++ [0x80] ++ repeat 0 (Z.to_nat ((55 - l) mod 64))
      ++ be_bytes 8 ((8 * l) mod 2 ^ 64).

(** Big-endian 32-bit words of a byte string. *)
Fixpoint words (bs : list Z) : list Z :=
  match bs with
  | b0 :: b1 :: b2 :: b3 :: r =>
      (b0 * 2 ^ 24 + b1 * 2 ^ 16 + b2 * 2 ^ 8 + b3) :: words r
  | _ => []
  end.

(** The 16-word blocks of a word list. *)
Fixpoint blocks (fuel : nat) (ws : list Z) : list (list Z) :=
  match fuel, ws with
  | S fuel', _ :: _ => firstn 16 ws :: blocks fuel' (skipn 16 ws)
  | _, _ => []
  end.

(** Message schedule: extend the 16 words of a block by [n] more. *)
Fixpoint schedule (n : nat) (w : list Z) : list Z :=
  match n with
  | O => w
  | S n' =>
      let t := length w in
      let at_ i := nth (t - i) w 0 in
      schedule n'
        (w ++ [add32 (add32 (add32 (sigma1 (at_ 2%nat)) (at_ 7%nat))
                            (sigma0 (at_ 15%nat))) (at_ 16%nat)])
  end.

(** One round of the compression function. *)
Definition round (s : regs) (kw : Z * Z) : regs :=
  let t1 := add32 (add32 (add32 (add32 (rh s) (Sigma1 (re s)))
                                (Ch (re s) (rf s) (rg s))) (fst kw)) (snd kw) in
  let t2 := add32 (Sigma0 (ra s)) (Maj (ra s) (rb s) (rc s)) in
  Regs (add32 t1 t2) (ra s) (rb s) (rc s) (add32 (rd s) t1) (re s) (rf s) (rg s).

Definition add_regs (h s : regs) : regs :=
  Regs (add32 (ra h) (ra s)) (add32 (rb h) (rb s))
       (add32 (rc h) (rc s)) (add32 (rd h) (rd s))
       (add32 (re h) (re s)) (add32 (rf h) (rf s))
       (add32 (rg h) (rg s)) (add32 (rh h) (rh s)).

Definition compress (h : regs) (block : list Z) : regs :=
  add_regs h (fold_left round (combine K (schedule 48 block)) h).

(** The hash value of a byte string. *)
Definition sha256 (data : list Z) : regs :=
  let ws := words (pad data) in
  fold_left compress (blocks (length ws) ws) H0.

Definition hex_digit (d : Z) : Z := if d <? 10 then 48 + d else 87 + d.

Definition hex_word (w : Z) : pystr :=
  map (fun i => hex_digit ((w / 16 ^ i) mod 16)) [7; 6; 5; 4; 3; 2; 1; 0].

Definition regs_words (h : regs) : list Z :=
  [ra h; rb h; rc h; rd h; re h; rf h; rg h; rh h].

(** [hashlib.sha256(data).hexdigest()]: 64 lowercase hexadecimal digits. *)
Definition hexdigest (data : list Z) : pystr :=
  flat_map hex_word (regs_words (sha256 data)).

End Sha256.


(** ** Python values, exceptions *)

Module Py.
Import PyStr.
Local Open Scope Z_scope.

(** The values held by the dictionaries of the program. *)
Inductive pyval :=
| VStr (s : pystr)
| VInt (n : Z)
| VNone.

(** A [dict] with string keys. *)
Abbreviation dict := (gmap string pyval).

(** The exceptions that can leave the modelled code.  [ModelError] stands
    for whatever [generate_content] or [resp.text] raises; [RerunException]
    is how [st.rerun()] stops the running script. *)
Inductive exn :=
| KeyError (key : string)
| TypeError
| UnicodeEncodeError
| ModelError (what : pystr)
| RerunException.

Inductive result (A : Type) :=
| Ok (a : A)
| Raise (e : exn).
Arguments Ok {A} a.
Arguments Raise {A} e.

#[global] Instance pyval_eq_dec : EqDecision pyval.
Proof. unfold pystr. solve_decision. Defined.

#[global] Instance exn_eq_dec : EqDecision exn.
Proof. unfold pystr. solve_decision. Defined.

#[global] Instance result_eq_dec {A} `{EqDecision A} : EqDecision (result A).
Proof. solve_decision. Defined.

(** [d[k]] *)
Definition getitem (d : dict) (k : string) : result pyval :=
  match d !! k with
  | Some v => Ok v
  | None => Raise (KeyError k)
  end.

(** [format(v, "")] as an f-string field renders a value. *)
Definition format_value (v : pyval) : pystr :=
  match v with
  | VStr s => s
  | VInt n => str_of_int n
  | VNone => lit "None"
  end.

(** [v == 1] *)
Definition eq_int (v : pyval) (n : Z) : bool :=
  match v with
  | VInt m => m =? n
  | _ => false
  end.

(** [l[-n:]] for a positive [n]. *)
Definition last_n {A} (n : nat) (l : list A) : list A :=
  skipn (length l - n) l.

End Py.

(** ** DatabaseManager *)

Module Db.
Import PyStr Py.
Local Open Scope Z_scope.

(** A row of table [users]. *)
Record user_row := UserRow
  { u_id : Z; u_username : pystr; u_password_hash : pystr }.

(** A row of table [chat_history]. *)
Record chat_row := ChatRow
  { c_id : Z; c_user_id : Z; c_message : pystr; c_is_user : Z;
    c_timestamp : pystr }.

(** The database file: both tables in storage order, and for each the
    largest rowid ever handed out (SQLite's [sqlite_sequence] entry, kept
    because both keys are [AUTOINCREMENT]). *)
Record database := Database
  { users : list user_row; users_seq : Z;
    chat_history : list chat_row; chat_seq : Z }.

(** [_create_tables] on a new file: two empty tables. *)
Definition create_tables : database := Database [] 0 [] 0.

(** The rowid an [AUTOINCREMENT] key gives to a new row: one more than
    the largest rowid that ever existed in the table. *)
Definition next_rowid (seq : Z) (ids : list Z) : Z :=
  fold_right Z.max seq ids + 1.

(** The dict [authenticate_user] returns: [{"id": .., "username": ..}]. *)
Record user_info := UserInfo { id : Z; username : pystr }.

Definition hash_password (pwd : pystr) : result pystr :=
  match encode pwd with
  | Some bytes => Ok (Sha256.hexdigest bytes)
  | None => Raise UnicodeEncodeError
  end.

Definition has_username (name : pystr) (r : user_row) : bool :=
  bool_decide (u_username r = name).

(** A [str] that can be bound to an SQL parameter: one with a UTF-8
    encoding. *)
Definition bindable (s : pystr) : bool :=
  match encode s with Some _ => true | None => false end.

(** [INSERT INTO users (username, password_hash)]: [None] when the
    statement raises, because the username cannot be bound or because
    the [UNIQUE] constraint on [username] rejects the row.  (The second
    parameter is a digest of [hash_password], plain hexadecimal.) *)
Definition insert_user (db : database) (name hash : pystr) : option database :=
  if bindable name then
    if existsb (has_username name) (users db) then None
    else
      let rowid := next_rowid (users_seq db) (map u_id (users db)) in
      Some (Database (users db ++ [UserRow rowid name hash]) rowid
                     (chat_history db) (chat_seq db))
  else None.

(** [create_user]: the bare [except] turns every failure into [False];
    nothing is committed then.  (The [except] clause does not close the
    connection either; what that leaves behind is in [Txn.step].) *)
Definition create_user (db : database) (username pwd : pystr) : database * bool :=
  match hash_password pwd with
  | Raise _ => (db, false)
  | Ok h =>
      match insert_user db username h with
      | Some db' => (db', true)
      | None => (db, false)
      end
  end.

(** [authenticate_user]: the [SELECT] binds the username (and raises if
    that cannot be done), [fetchone] gives the row with that username,
    then the digests are compared; the digest is only computed when a
    row exists ([row and ...] short-circuits). *)
Definition authenticate_user (db : database) (username pwd : pystr)
  : result (option user_info) :=
  if bindable username then
    match find (has_username username) (users db) with
    | None => Ok None
    | Some row =>
        match hash_password pwd with
        | Raise e => Raise e
        | Ok h =>
            if bool_decide (u_password_hash row = h)
            then Ok (Some (UserInfo (u_id row) (u_username row)))
            else Ok None
        end
    end
  else Raise UnicodeEncodeError.

(** [INSERT INTO chat_history (user_id, message, is_user)]; [ts] is the
    value [CURRENT_TIMESTAMP] has when the statement runs. *)
Definition insert_chat (db : database) (ts : pystr) (user_id : Z)
    (message : pystr) (is_user : Z) : database :=
  let rowid := next_rowid (chat_seq db) (map c_id (chat_history db)) in
  Database (users db) (users_seq db)
           (chat_history db ++ [ChatRow rowid user_id message is_user ts])
           rowid.

(** [save_chat]: the user's message, then the reply, then one commit.
    [stamps] are the two readings of [CURRENT_TIMESTAMP].  The arguments
    are those of the script (see the conventions): text with a UTF-8
    encoding and the rowid of an account. *)
Definition save_chat (db : database) (stamps : pystr * pystr) (user_id : Z)
    (msg resp : pystr) : database :=
  insert_chat (insert_chat db (fst stamps) user_id msg 1)
              (snd stamps) user_id resp 0.

(** [ORDER BY id ASC] *)
Fixpoint insert_by_id (r : chat_row) (l : list chat_row) : list chat_row :=
  match l with
  | [] => [r]
  | x :: l' => if c_id r <=? c_id x then r :: l else x :: insert_by_id r l'
  end.

Definition order_by_id (l : list chat_row) : list chat_row :=
  fold_right insert_by_id [] l.

(** The dict built from one selected row:
    [{"message": r[0], "is_user": r[1], "timestamp": r[2]}]. *)
Definition record_dict (message : pystr) (is_user : Z) (timestamp : pystr) : dict :=
  <["message" := VStr message]>
    (<["is_user" := VInt is_user]>
       (<["timestamp" := VStr timestamp]> ∅)).

Definition row_dict (r : chat_row) : dict :=
  record_dict (c_message r) (c_is_user r) (c_timestamp r).

Definition get_chat_history (db : database) (user_id : Z) : list dict :=
  map row_dict
      (order_by_id (List.filter (fun r => c_user_id r =? user_id) (chat_history db))).

End Db.

(** ** The running application: state, effects, handlers *)

Module App.
Import PyStr Py Db.
Local Open Scope Z_scope.

(** [st.session_state] (the [db] and [chatbot] entries are the store and
    the model handle below). *)
Record session := Session
  { user : option user_info; chat_open : bool; history : list dict }.

(** What a script run does to the outside: widgets it writes, the prompt
    it sends to the model together with what came back, the exchange it
    hands to [save_chat]. *)
Inductive event :=
| Success (text : pystr)
| Error (text : pystr)
| Markdown (text : pystr)
| SidebarWrite (text : pystr)
| Generate (prompt : pystr) (outcome : result pystr)
| SaveChat (user_id : Z) (msg resp : pystr).

#[global] Instance event_eq_dec : EqDecision event.
Proof. unfold pystr. solve_decision. Defined.

Record world := World
  { w_db : database; w_session : session; w_log : list event }.

(** What the environment supplies to one script run: the behaviour of
    [model.generate_content(prompt)] followed by [resp.text], and the
    clock readings of the two [INSERT] statements of [save_chat]. *)
Record env := Env
  { generate_content : pystr -> result pystr; stamps : pystr * pystr }.

(** State and exceptions: a raised exception keeps the mutations made
    before it. *)
Definition M (A : Type) : Type := world -> result A * world.

Definition ret {A} (a : A) : M A := fun w => (Ok a, w).
Definition raise {A} (e : exn) : M A := fun w => (Raise e, w).
Definition bind {A B} (c : M A) (k : A -> M B) : M B :=
  fun w =>
    match c w with
    | (Ok a, w') => k a w'
    | (Raise e, w') => (Raise e, w')
    end.
Definition lift {A} (r : result A) : M A := fun w => (r, w).

Notation "x <- c ;; k" := (bind c (fun x => k))
  (at level 100, c at next level, right associativity).
Notation "c ;;; k" := (bind c (fun _ => k))
  (at level 100, right associativity).

Definition get_db : M database := fun w => (Ok (w_db w), w).
Definition put_db (db : database) : M unit :=
  fun w => (Ok tt, World db (w_session w) (w_log w)).
Definition get_session : M session := fun w => (Ok (w_session w), w).
Definition put_session (s : session) : M unit :=
  fun w => (Ok tt, World (w_db w) s (w_log w)).
Definition emit (e : event) : M unit :=
  fun w => (Ok tt, World (w_db w) (w_session w) (w_log w ++ [e])).

Definition nl : pystr := [10].
Definition quote : pystr := [34].

(** *** CareerChatbot *)

(** The body of the loop of [get_response], over the entries it visits. *)
Fixpoint add_exchanges (context : pystr) (hs : list dict) : result pystr :=
  match hs with
  | [] => Ok context
  | h :: rest =>
      match getitem h "message" with
      | Raise e => Raise e
      | Ok m =>
          match getitem h "response" with
          | Raise e => Raise e
          | Ok r =>
              add_exchanges
                (context ++ lit "User: " ++ format_value m ++ nl
                         ++ lit "Assistant: " ++ format_value r ++ nl)
                rest
          end
      end
  end.

(** The prompt [get_response] builds ([context] at line 189); [history]
    is [None] when the argument is left out. *)
Definition build_context (message : pystr) (history : option (list dict))
  : result pystr :=
  let context := lit "You are a helpful career counsellor." ++ nl in
  match
    match history with
    | Some ((_ :: _) as h) => add_exchanges context (last_n 3 h)
    | _ => Ok context
    end
  with
  | Raise e => Raise e
  | Ok context' => Ok (context' ++ lit "User: " ++ message ++ nl ++ lit "Assistant:")
  end.

Definition get_response (E : env) (message : pystr) (history : option (list dict))
  : M pystr :=
  context <- lift (build_context message history) ;;
  let outcome := generate_content E context in
  emit (Generate context outcome) ;;;
  text <- lift outcome ;;
  ret (strip text).

(** *** The Streamlit script *)

(** The widget interaction that triggers a script run, with the values of
    the text inputs next to the pressed button. *)
Inductive action :=
| NoAction
| Login (u p : pystr)
| SignUp (u p : pystr)
| Logout
| ChatToggle
| Send (msg : pystr).

Definition rerun {A} : M A := raise RerunException.

(** Lines 218-227. *)
Definition login_handler (u p : pystr) : M unit :=
  db <- get_db ;;
  found <- lift (authenticate_user db u p) ;;
  match found with
  | Some usr =>
      s <- get_session ;;
      put_session (Session (Some usr) (chat_open s) (history s)) ;;;
      s <- get_session ;;
      put_session (Session (user s) (chat_open s) (get_chat_history db (id usr))) ;;;
      emit (Success (lit "Logged in!")) ;;;
      rerun
  | None => emit (Error (lit "Invalid login"))
  end.

(** Lines 231-233. *)
Definition signup_handler (u p : pystr) : M unit :=
  db <- get_db ;;
  let (db', created) := create_user db u p in
  put_db db' ;;;
  if created then emit (Success (lit "Account created! Please login."))
  else emit (Error (lit "Username exists")).

(** Lines 238-242. *)
Definition logout_handler : M unit :=
  s <- get_session ;;
  put_session (Session None (chat_open s) []) ;;;
  emit (Success (lit "Logged out successfully!")) ;;;
  rerun.

(** Lines 259-263. *)
Fixpoint display_history (hs : list dict) : M unit :=
  match hs with
  | [] => ret tt
  | h :: rest =>
      flag <- lift (getitem h "is_user") ;;
      m <- lift (getitem h "message") ;;
      emit (Markdown (lit "<div class=" ++ quote
                        ++ (if eq_int flag 1 then lit "user-msg" else lit "bot-msg")
                        ++ quote ++ lit ">" ++ format_value m ++ lit "</div>")) ;;;
      display_history rest
  end.

(** [st.session_state.user["id"]] *)
Definition session_user_id (s : session) : result Z :=
  match user s with
  | Some usr => Ok (id usr)
  | None => Raise TypeError
  end.

(** The dict the send handler appends to the session history:
    [{"message": msg, "response": resp}]. *)
Definition exchange_dict (msg resp : pystr) : dict :=
  <["message" := VStr msg]> (<["response" := VStr resp]> ∅).

(** Lines 270-275. *)
Definition send_handler (E : env) (msg : pystr) : M unit :=
  if truthy (strip msg) then
    s <- get_session ;;
    resp <- get_response E msg (Some (history s)) ;;
    s <- get_session ;;
    put_session
      (Session (user s) (chat_open s)
               (history s ++ [exchange_dict msg resp])) ;;;
    s <- get_session ;;
    uid <- lift (session_user_id s) ;;
    emit (SaveChat uid msg resp) ;;;
    db <- get_db ;;
    put_db (save_chat db (stamps E) uid msg resp) ;;;
    rerun
  else ret tt.

(** Lines 253-277. *)
Definition chat_popup (E : env) (a : action) : M unit :=
  emit (Markdown (lit "<div class=" ++ quote ++ lit "chat-popup" ++ quote ++ lit ">")) ;;;
  emit (Markdown (lit "### CareerBot Chat")) ;;;
  s <- get_session ;;
  display_history (history s) ;;;
  match a with
  | Send msg => send_handler E msg
  | _ => ret tt
  end ;;;
  emit (Markdown (lit "</div>")).

(** One run of the script from line 213 on. *)
Definition script (E : env) (a : action) : M unit :=
  s <- get_session ;;
  match user s with
  | None =>
      match a with
      | Login u p => login_handler u p
      | SignUp u p => signup_handler u p
      | _ => ret tt
      end
  | Some usr =>
      emit (SidebarWrite ([0x1F44B] ++ lit " Welcome, " ++ username usr)) ;;;
      match a with
      | Logout => logout_handler
      | _ => ret tt
      end
  end ;;;
  s <- get_session ;;
  match user s with
  | None => ret tt
  | Some _ =>
      match a with
      | ChatToggle =>
          put_session (Session (user s) (negb (chat_open s)) (history s))
      | _ => ret tt
      end ;;;
      s <- get_session ;;
      if chat_open s then chat_popup E a else ret tt
  end.

(** A user interaction: the run it triggers and, when that run ends in
    [st.rerun()], the run that follows with no widget pressed. *)
Definition interact (E : env) (a : action) : M unit :=
  fun w =>
    match script E a w with
    | (Raise RerunException, w') => script E NoAction w'
    | other => other
    end.

(** The state of a fresh browser session on a fresh database file
    (lines 195-199). *)
Definition initial_world : world :=
  World create_tables (Session None false []) [].

End App.

(** ** The store under transactions

    [create_user] and [save_chat] each open a connection, run their
    [INSERT] statements and commit once.  SQLite shows other connections
    the committed database only, and lets one connection write at a
    time.  The store is therefore the committed database together with
    the private image and the remaining statements of the writer, if one
    is under way. *)

Module Txn.
Import PyStr Py Db.
Local Open Scope Z_scope.

Inductive stmt :=
| InsertUser (name hash : pystr)
| InsertChat (ts : pystr) (user_id : Z) (message : pystr) (is_user : Z).

Definition exec (st : stmt) (v : database) : option database :=
  match st with
  | InsertUser name hash => insert_user v name hash
  | InsertChat ts uid m flag => Some (insert_chat v ts uid m flag)
  end.

(** The statements left to a writer, run to the end. *)
Fixpoint exec_all (sts : list stmt) (v : database) : option database :=
  match sts with
  | [] => Some v
  | st :: rest =>
      match exec st v with
      | Some v' => exec_all rest v'
      | None => None
      end
  end.

(** The statements of [save_chat], lines 162 and 164. *)
Definition save_chat_stmts (stamps : pystr * pystr) (user_id : Z)
    (msg resp : pystr) : list stmt :=
  [InsertChat (fst stamps) user_id msg 1; InsertChat (snd stamps) user_id resp 0].

Record store := Store
  { committed : database; writer : option (database * list stmt) }.

(** What can happen to the store, one statement at a time. *)
Inductive label :=
| BeginSaveChat (stamps : pystr * pystr) (user_id : Z) (msg resp : pystr)
| BeginCreateUser (username pwd : pystr)
| Execute
| Commit
| Abandon.

(** One step.  A call that finds the database locked, or whose password
    cannot be hashed, starts nothing.  A statement that fails (the INSERT
    of [create_user] on a username that is taken or cannot be bound)
    sends the call to its [except] clause, which neither commits nor
    closes: the transaction stays open, holding the write lock, until the
    connection is dropped, and dropping a connection before its commit
    rolls the writer back. *)
Definition step (l : label) (s : store) : store :=
  match l, writer s with
  | BeginSaveChat stamps uid msg resp, None =>
      Store (committed s) (Some (committed s, save_chat_stmts stamps uid msg resp))
  | BeginCreateUser name pwd, None =>
      match hash_password pwd with
      | Ok h => Store (committed s) (Some (committed s, [InsertUser name h]))
      | Raise _ => s
      end
  | Execute, Some (v, st :: rest) =>
      match exec st v with
      | Some v' => Store (committed s) (Some (v', rest))
      | None => s
      end
  | Commit, Some (v, []) => Store v None
  | Abandon, Some _ => Store (committed s) None
  | _, _ => s
  end.

Definition run (ls : list label) (s : store) : store :=
  fold_left (fun s l => step l s) ls s.

(** The store of a fresh database file. *)
Definition initial : store := Store create_tables None.

(** What a reader sees: [get_chat_history] on its own connection. *)
Definition read_history (s : store) (user_id : Z) : list dict :=
  get_chat_history (committed s) user_id.

End Txn.

(** ** Vocabulary of the statements proved below *)

Module Props.
Import PyStr Py Db App.
Local Open Scope Z_scope.

(** The rows of [chat_history] come in pairs: a user row directly
    followed by the reply row of the same account, with the next rowid. *)
Fixpoint paired (rows : list chat_row) : bool :=
  match rows with
  | [] => true
  | u :: a :: rest =>
      (c_is_user u =? 1) && (c_is_user a =? 0)
      && (c_user_id a =? c_user_id u) && (c_id a =? c_id u + 1)
      && paired rest
  | [_] => false
  end.

(** The invariant of the store: the committed rows are paired, and so
    are the rows the writer under way will commit. *)
Definition store_inv (s : Txn.store) : Prop :=
  paired (chat_history (Txn.committed s)) = true
  /\ match Txn.writer s with
     | None => True
     | Some (v, rest) =>
         forall v', Txn.exec_all rest v = Some v' -> paired (chat_history v') = true
     end.

(** A call of [save_chat]. *)
Record call := Call
  { call_stamps : pystr * pystr; call_user : Z;
    call_msg : pystr; call_resp : pystr }.

(** The calls that change the database. *)
Inductive op :=
| CreateUser (username pwd : pystr)
| SaveChat (c : call).

Definition apply_op (db : database) (o : op) : database :=
  match o with
  | CreateUser u p => fst (create_user db u p)
  | SaveChat c => save_chat db (call_stamps c) (call_user c) (call_msg c) (call_resp c)
  end.

Definition run_ops (db : database) (ops : list op) : database :=
  fold_left apply_op ops db.

(** The [save_chat] calls made for one account, in call order. *)
Fixpoint calls_for (user_id : Z) (ops : list op) : list call :=
  match ops with
  | [] => []
  | SaveChat c :: rest =>
      if call_user c =? user_id then c :: calls_for user_id rest
      else calls_for user_id rest
  | CreateUser _ _ :: rest => calls_for user_id rest
  end.

(** The operations of [ops] other than the [save_chat] calls made for
    account [user_id]. *)
Definition without_calls_for (user_id : Z) (ops : list op) : list op :=
  List.filter
    (fun o => match o with
              | SaveChat c => negb (call_user c =? user_id)
              | CreateUser _ _ => true
              end) ops.

(** The two records one call contributes to the history of its account. *)
Definition call_records (c : call) : list dict :=
  [record_dict (call_msg c) 1 (fst (call_stamps c));
   record_dict (call_resp c) 0 (snd (call_stamps c))].

(** The prompt the context builder is meant to produce from a list of
    exchanges (message, response) and a new message. *)
Definition exchange_lines (ex : pystr * pystr) : pystr :=
  lit "User: " ++ fst ex ++ nl ++ lit "Assistant: " ++ snd ex ++ nl.

Definition prompt_of (exchanges : list (pystr * pystr)) (message : pystr) : pystr :=
  lit "You are a helpful career counsellor." ++ nl
    ++ flat_map exchange_lines exchanges
    ++ lit "User: " ++ message ++ nl ++ lit "Assistant:".

(** Two sign-ups on a fresh database, with the same password. *)
Definition alice_db : database :=
  fst (create_user create_tables (lit "alice") (lit "pw123")).

Definition alice_bob_db : database :=
  fst (create_user alice_db (lit "bob") (lit "pw123")).

(** A session on a fresh database: sign up, log in, open the chat, send
    a first message (the model answers), log out, log in again and send
    a second message. *)
Definition demo_env : env :=
  Env (fun _ => Ok (lit " Consider biotechnology. "))
      (lit "2024-05-01 10:00:00", lit "2024-05-01 10:00:00").

Definition demo_actions : list action :=
  [SignUp (lit "alice") (lit "pw123");
   Login (lit "alice") (lit "pw123");
   ChatToggle;
   Send (lit "What careers suit a biology graduate?");
   Logout;
   Login (lit "alice") (lit "pw123");
   Send (lit "And with a master's degree?")].

(** Interactions one after the other; an exception ends a script run,
    not the session. *)
Definition run_actions (E : env) (acts : list action) (w : world)
  : result unit * world :=
  fold_left (fun rw a => interact E a (snd rw)) acts (Ok tt, w).

(** The history the second login of [demo_actions] loads. *)
Definition demo_history : list dict :=
  get_chat_history
    (save_chat alice_db (stamps demo_env) 1
               (lit "What careers suit a biology graduate?")
               (lit "Consider biotechnology."))
    1.

(** An event that is neither a model call nor a [save_chat]. *)
Definition quiet (e : event) : bool :=
  match e with
  | Generate _ _ | App.SaveChat _ _ _ => false
  | _ => true
  end.

(** A [save_chat] event of the log. *)
Definition is_save (e : event) : bool :=
  match e with App.SaveChat _ _ _ => true | _ => false end.

(** A model call of the log that returned a reply. *)
Definition is_reply (e : event) : bool :=
  match e with Generate _ (Ok _) => true | _ => false end.

(** What pressing Send with [msg] in world [w] may lead to, [w'] being
    the world afterwards and [evs] the events added to the log: either
    no reply came back, nothing was handed to [save_chat], and database
    and session are as before; or the model returned [reply] to the
    prompt built from the session history, and then, next to each other,
    the exchange was appended to the session history and saved. *)
Definition send_outcome (E : env) (msg : pystr) (w w' : world) (evs : list event)
  : Prop :=
  (existsb is_save evs = false /\ existsb is_reply evs = false
   /\ w_db w' = w_db w /\ w_session w' = w_session w)
  \/ (exists pre post prompt reply usr,
        evs = pre ++ [Generate prompt (Ok reply);
                      App.SaveChat (id usr) msg (strip reply)] ++ post
        /\ forallb quiet pre = true /\ forallb quiet post = true
        /\ build_context msg (Some (history (w_session w))) = Ok prompt
        /\ generate_content E prompt = Ok reply
        /\ user (w_session w) = Some usr
        /\ w_db w' = save_chat (w_db w) (stamps E) (id usr) msg (strip reply)
        /\ history (w_session w')
           = history (w_session w) ++ [exchange_dict msg (strip reply)]).

(** The credential stored for a username. *)
Definition credential (db : database) (name : pystr) : option pystr :=
  option_map u_password_hash (find (has_username name) (users db)).

(** A 32-bit word; a hash value made of eight of them. *)
Definition word32 (w : Z) : Prop := 0 <= w < 2 ^ 32.

Definition regs_ok (h : Sha256.regs) : Prop :=
  word32 (Sha256.ra h) /\ word32 (Sha256.rb h) /\ word32 (Sha256.rc h) /\
  word32 (Sha256.rd h) /\ word32 (Sha256.re h) /\ word32 (Sha256.rf h) /\
  word32 (Sha256.rg h) /\ word32 (Sha256.rh h).

(** The hash value as one integer below 2^256. *)
Definition regs_int (h : Sha256.regs) : Z :=
  fold_left (fun acc w => acc * 2 ^ 32 + w) (Sha256.regs_words h) 0.


(** The rowids 1, 2, ..., n. *)
Definition ids_upto (n : nat) : list Z := map Z.of_nat (seq 1 n).

(** What every database the program produces looks like: in both tables
    the rowids count up from 1 in storage order and the sequence entry is
    the last of them, and no username occurs twice. *)
Definition db_ok (db : database) : Prop :=
  map u_id (users db) = ids_upto (length (users db))
  /\ users_seq db = Z.of_nat (length (users db))
  /\ map c_id (chat_history db) = ids_upto (length (chat_history db))
  /\ chat_seq db = Z.of_nat (length (chat_history db))
  /\ List.NoDup (map u_username (users db)).

(** A record of the session history in one of the two shapes the
    program builds. *)
Definition program_record (d : dict) : Prop :=
  (exists r, d = row_dict r) \/ (exists m p, d = exchange_dict m p).

(** What holds of the database and the session together: every chat row
    belongs to an account of the [users] table, the logged-in user is
    such an account, and only a logged-in session has a history. *)
Definition world_ok (w : world) : Prop :=
  db_ok (w_db w)
  /\ paired (chat_history (w_db w)) = true
  /\ (forall r, In r (chat_history (w_db w)) ->
        exists u, In u (users (w_db w)) /\ u_id u = c_user_id r)
  /\ match user (w_session w) with
     | Some usr => exists h, In (UserRow (id usr) (username usr) h) (users (w_db w))
     | None => history (w_session w) = []
     end
  /\ Forall program_record (history (w_session w)).

(** The ways one interaction can change the database and the session. *)
Inductive transition (E : env) (w : world) : action -> database -> session -> Prop :=
| tr_same a :
    transition E w a (w_db w) (w_session w)
| tr_login u p usr :
    user (w_session w) = None ->
    authenticate_user (w_db w) u p = Ok (Some usr) ->
    transition E w (Login u p) (w_db w)
      (Session (Some usr) (chat_open (w_session w))
               (get_chat_history (w_db w) (id usr)))
| tr_signup u p :
    user (w_session w) = None ->
    transition E w (SignUp u p) (fst (create_user (w_db w) u p)) (w_session w)
| tr_logout usr :
    user (w_session w) = Some usr ->
    transition E w Logout (w_db w) (Session None (chat_open (w_session w)) [])
| tr_toggle usr :
    user (w_session w) = Some usr ->
    transition E w ChatToggle (w_db w)
      (Session (Some usr) (negb (chat_open (w_session w))) (history (w_session w)))
| tr_send msg usr prompt reply :
    user (w_session w) = Some usr ->
    chat_open (w_session w) = true ->
    Forall (fun h => is_Some (h !! "is_user")) (history (w_session w)) ->
    truthy (strip msg) = true ->
    build_context msg (Some (history (w_session w))) = Ok prompt ->
    generate_content E prompt = Ok reply ->
    transition E w (Send msg)
      (save_chat (w_db w) (stamps E) (id usr) msg (strip reply))
      (Session (Some usr) true
               (history (w_session w) ++ [exchange_dict msg (strip reply)])).

(** A browser session: interactions one after the other, each with what
    the environment supplies to it. *)
Definition run_session (steps : list (env * action)) (w : world) : world :=
  fold_left (fun w st => snd (interact (fst st) (snd st) w)) steps w.

(** The bubble the display loop writes for a record. *)
Definition bubble (flag m : pyval) : event :=
  Markdown (lit "<div class=" ++ quote
              ++ (if eq_int flag 1 then lit "user-msg" else lit "bot-msg")
              ++ quote ++ lit ">" ++ format_value m ++ lit "</div>").

Definition row_bubble (r : chat_row) : event :=
  bubble (VInt (c_is_user r)) (VStr (c_message r)).

(** A lowercase hexadecimal digit. *)
Definition hexchar (c : Z) : Prop := 48 <= c <= 57 \/ 97 <= c <= 102.

(** What reading the store as a series of whole calls asks of a writer
    under way: should it run to its commit, the database it commits is
    the one a whole call returns on the committed database. *)
Definition serial (s : Txn.store) : Prop :=
  match Txn.writer s with
  | None => True
  | Some (v, rest) =>
      forall v', Txn.exec_all rest v = Some v' ->
                 exists o, v' = apply_op (Txn.committed s) o
  end.

(** A valid byte. *)
Definition byte_ok (b : Z) : Prop := 0 <= b < 256.

(** Rows compared by rowid. *)
Definition id_le (a b : chat_row) : Prop := c_id a <= c_id b.

(** A string with characters of one, two, three and four bytes, and its
    UTF-8 encoding. *)
Definition utf8_sample : pystr := [112; 228; 8364; 128512].

Definition utf8_sample_bytes : list Z :=
  [112; 195; 164; 226; 130; 172; 240; 159; 152; 128].

End Props.

(** * Properties *)

Import PyStr Py Db App Props.
Local Open Scope Z_scope.

(** Closed equations between values with decidable equality, settled by
    evaluation. *)
Ltac by_compute :=
  match goal with
  | |- ?x = ?y => apply (bool_decide_unpack (x = y)); vm_compute; exact I
  end.

(** ** Python strings *)

Example strip_example :
  strip ([32; 9; 0x3000] ++ lit "hi there" ++ [32; 10; 0x1F]) = lit "hi there".
Proof. reflexivity. Qed.

Example str_of_int_example :
  str_of_int 1205 = lit "1205" /\ str_of_int 0 = lit "0" /\ str_of_int (-37) = lit "-37".
Proof. repeat split. Qed.

(** A lone surrogate has no UTF-8 encoding: [hash_password] raises, and
    [create_user] swallows the exception. *)
Example surrogate_password :
  hash_password [0xD800] = Raise UnicodeEncodeError
  /\ create_user create_tables (lit "carol") [0xD800] = (create_tables, false).
Proof. split; reflexivity. Qed.

(** ** The digest *)

Section Sha256Facts.
Import Sha256.

Example hexdigest_empty :
  hexdigest [] = lit "e3b0c44298fc1c149afbf4c8996fb92427ae41e4649b934ca495991b7852b855".
Proof. vm_compute. reflexivity. Qed.

Example hash_password_abc :
  hash_password (lit "abc")
  = Ok (lit "ba7816bf8f01cfea414140de5dae2223b00361a396177a9cb410ff61f20015ad").
Proof. vm_compute. reflexivity. Qed.

(** Two blocks: 56 bytes of input no longer fit one block with the padding. *)
Example hash_password_two_blocks :
  hash_password (repeat 97 56)
  = Ok (lit "b35439a4ac6f0948b6d6f9e3c6af0f5f590ce20f1bde7090ef7970686ec6738a").
Proof. vm_compute. reflexivity. Qed.

(** A password outside ASCII goes through its UTF-8 bytes. *)
Example hash_password_utf8 :
  hash_password [112; 228; 115; 115; 0x20ac; 0x1F600]
  = Ok (lit "957d1ba8fa0c1357152f0c1bc9fafc7cbc9f99fddf43fcd6916a13b22f1c66fd").
Proof. vm_compute. reflexivity. Qed.

Lemma add32_word x y : word32 (add32 x y).
Proof. unfold word32, add32. apply Z.mod_pos_bound. reflexivity. Qed.

Lemma compress_ok h block : regs_ok (compress h block).
Proof. unfold compress, add_regs, regs_ok; cbn [ra rb rc rd re rf rg rh]. repeat split; apply add32_word. Qed.

Lemma H0_ok : regs_ok H0.
Proof. unfold regs_ok, word32; cbn. lia. Qed.

Lemma fold_compress_ok bs : forall h, regs_ok h -> regs_ok (fold_left compress bs h).
Proof.
  induction bs as [|b bs IH]; intros h Hh; cbn [fold_left]; [exact Hh|].
  apply IH, compress_ok.
Qed.

Lemma sha256_ok data : regs_ok (sha256 data).
Proof. unfold sha256. apply fold_compress_ok, H0_ok. Qed.

End Sha256Facts.

Section Collisions.
Import Sha256.

Lemma regs_int_range h : regs_ok h -> 0 <= regs_int h < 2 ^ 256.
Proof.
  destruct h as [a b c d e f g i].
  unfold regs_ok, word32, regs_int; cbn [regs_words fold_left ra rb rc rd re rf rg rh].
  intros (Ha & Hb & Hc & Hd & He & Hf & Hg & Hi).
  change (2 ^ 32) with 4294967296 in *.
  change (2 ^ 256) with (4294967296 * 4294967296 * 4294967296 * 4294967296
                         * 4294967296 * 4294967296 * 4294967296 * 4294967296).
  nia.
Qed.

(** No function from the naturals into a bounded range is injective. *)
Lemma bounded_not_injective (N : nat) (f : nat -> nat) :
  (forall n, (f n < N)%nat) -> ~ (forall i j, f i = f j -> i = j).
Proof.
  intros Hb Hinj.
  assert (Hnd : List.NoDup (map f (seq 0 (S N)))).
  { apply Finite.Injective_map_NoDup; [exact Hinj | apply List.seq_NoDup]. }
  assert (Hincl : incl (map f (seq 0 (S N))) (seq 0 N)).
  { intros x Hx. apply in_map_iff in Hx as (n & <- & _). apply in_seq. specialize (Hb n). lia. }
  pose proof (List.NoDup_incl_length Hnd Hincl) as Hlen.
  rewrite length_map, !length_seq in Hlen. lia.
Qed.

Lemma shift_word_inj a a' w w' :
  word32 w -> word32 w' -> a * 2 ^ 32 + w = a' * 2 ^ 32 + w' -> a = a' /\ w = w'.
Proof. unfold word32. change (2 ^ 32) with 4294967296. lia. Qed.

Lemma regs_int_inj h h' :
  regs_ok h -> regs_ok h' -> regs_int h = regs_int h' -> h = h'.
Proof.
  destruct h as [a b c d e f g i], h' as [a' b' c' d' e' f' g' i'].
  unfold regs_ok, regs_int; cbn [regs_words fold_left ra rb rc rd re rf rg rh].
  intros (Ha & Hb & Hc & Hd & He & Hf & Hg & Hi) (Ha' & Hb' & Hc' & Hd' & He' & Hf' & Hg' & Hi') H.
  apply shift_word_inj in H as [H ->]; [|assumption..].
  apply shift_word_inj in H as [H ->]; [|assumption..].
  apply shift_word_inj in H as [H ->]; [|assumption..].
  apply shift_word_inj in H as [H ->]; [|assumption..].
  apply shift_word_inj in H as [H ->]; [|assumption..].
  apply shift_word_inj in H as [H ->]; [|assumption..].
  apply shift_word_inj in H as [H ->]; [|assumption..].
  replace a with a' by lia. reflexivity.
Qed.

(** SHA-256 maps infinitely many inputs to 2^256 values: already on the
    byte strings aaa...a it cannot be injective. *)
Lemma sha256_not_injective :
  ~ (forall n m : nat, sha256 (repeat 97 n) = sha256 (repeat 97 m) -> n = m).
Proof.
  intros Hinj.
  apply (bounded_not_injective (Z.to_nat (2 ^ 256))
           (fun n => Z.to_nat (regs_int (sha256 (repeat 97 n))))).
  - intros n.
    pose proof (regs_int_range _ (sha256_ok (repeat 97 n))) as [Hlo Hhi].
    apply Z2Nat.inj_lt; [exact Hlo | discriminate | exact Hhi].
  - intros i j H. apply Hinj.
    apply regs_int_inj; [apply sha256_ok..|].
    apply Z2Nat.inj; [apply regs_int_range, sha256_ok..| exact H].
Qed.

End Collisions.

(** ** The account store *)

Section AccountStore.

Lemma has_username_true name r : has_username name r = true <-> u_username r = name.
Proof. unfold has_username. apply bool_decide_eq_true. Qed.

Lemma find_app_new (name hash : pystr) (rowid : Z) rows :
  existsb (has_username name) rows = false ->
  find (has_username name) (rows ++ [UserRow rowid name hash])
  = Some (UserRow rowid name hash).
Proof.
  induction rows as [|r rows IH]; cbn [existsb find app].
  - intros _. unfold has_username at 1; cbn. now rewrite bool_decide_eq_true_2.
  - intros H. apply orb_false_iff in H as [-> H]. auto.
Qed.

(** What a successful [create_user] did. *)
Lemma create_user_true db u pwd db' :
  create_user db u pwd = (db', true) ->
  exists bytes,
    encode pwd = Some bytes /\
    existsb (has_username u) (users db) = false /\
    db' = Database
            (users db ++ [UserRow (next_rowid (users_seq db) (map u_id (users db))) u
                                  (Sha256.hexdigest bytes)])
            (next_rowid (users_seq db) (map u_id (users db)))
            (chat_history db) (chat_seq db).
Proof.
  unfold create_user, hash_password, insert_user.
  destruct (encode pwd) as [bytes|]; [|discriminate].
  destruct (bindable u); [|discriminate].
  destruct (existsb (has_username u) (users db)) eqn:Hex; [discriminate|].
  intros [= <-]. exists bytes. auto.
Qed.

(** A username that cannot be bound is never signed up. *)
Lemma create_user_bindable db u pwd db' :
  create_user db u pwd = (db', true) -> bindable u = true.
Proof.
  unfold create_user, insert_user.
  destruct (hash_password pwd); [|discriminate].
  destruct (bindable u); [reflexivity|discriminate].
Qed.

Lemma authenticate_found db u pwd row digest :
  bindable u = true ->
  find (has_username u) (users db) = Some row ->
  hash_password pwd = Ok digest ->
  authenticate_user db u pwd
  = Ok (if bool_decide (u_password_hash row = digest)
        then Some (UserInfo (u_id row) (u_username row)) else None).
Proof.
  intros Hb Hf Hh. unfold authenticate_user. rewrite Hb, Hf, Hh.
  destruct (bool_decide _); reflexivity.
Qed.


(** A username that cannot be bound makes the [SELECT] raise. *)
Lemma authenticate_unbindable db u pwd :
  bindable u = false -> authenticate_user db u pwd = Raise UnicodeEncodeError.
Proof. intros Hb. unfold authenticate_user. now rewrite Hb. Qed.




(** C5.  When a row with the username exists, [create_user] returns
    [False] and leaves the database as it was, whatever the password;
    the sign-up handler then reports "Username exists" and changes
    neither the database nor the session. *)
Theorem C5_duplicate_username w u pwd r :
  In r (users (w_db w)) ->
  u_username r = u ->
  create_user (w_db w) u pwd = (w_db w, false) /\
  signup_handler u pwd w
  = (Ok tt, World (w_db w) (w_session w) (w_log w ++ [Error (lit "Username exists")])).
Proof.
  intros Hin Hname.
  assert (Hex : existsb (has_username u) (users (w_db w)) = true).
  { apply existsb_exists. exists r. split; [exact Hin | now apply has_username_true]. }
  assert (Hc : create_user (w_db w) u pwd = (w_db w, false)).
  { unfold create_user, insert_user. rewrite Hex.
    destruct (hash_password pwd); [|reflexivity]. now destruct (bindable u). }
  split; [exact Hc|].
  unfold signup_handler, bind, get_db, put_db, emit. cbn [w_db].
  rewrite Hc. cbn. now destruct w.
Qed.

Lemma C5_duplicate_username_witness :
  create_user alice_db (lit "alice") (lit "other") = (alice_db, false) /\
  signup_handler (lit "alice") (lit "other") (World alice_db (Session None false []) [])
  = (Ok tt, World alice_db (Session None false []) [Error (lit "Username exists")]).
Proof.
  apply (C5_duplicate_username (World alice_db (Session None false []) [])
           (lit "alice") (lit "other")
           (UserRow 1 (lit "alice")
              (lit "23d47445adfb8991789b459b6ba1b974d727d310aa9d80b7c2875b9430c0ba25"))).
  - vm_compute. left. reflexivity.
  - reflexivity.
Defined.

(** A second sign-up with a username just created fails. *)
Lemma second_signup_fails db u pwd db' pwd2 :
  create_user db u pwd = (db', true) -> create_user db' u pwd2 = (db', false).
Proof.
  intros Hc. pose proof (create_user_bindable _ _ _ _ Hc) as Hb.
  apply create_user_true in Hc as (bytes & _ & _ & ->).
  unfold create_user, insert_user. cbn [users]. rewrite Hb.
  rewrite existsb_app. cbn [existsb]. unfold has_username at 2. cbn [u_username].
  rewrite bool_decide_eq_true_2 by reflexivity. rewrite orb_true_r.
  now destruct (hash_password pwd2).
Qed.

(** C9, as amended.  A successful [create_user] appends one row holding
    the new rowid, the username and the SHA-256 hexadecimal digest of the
    UTF-8 bytes of the password, and nothing else; the digest is a
    function of the password alone (no salt), so any other successful
    sign-up with the same password stores the same credential. *)
Theorem C9_stored_credential db u pwd db' :
  create_user db u pwd = (db', true) ->
  exists bytes,
    encode pwd = Some bytes /\
    users db' = users db ++ [UserRow (next_rowid (users_seq db) (map u_id (users db))) u
                                     (Sha256.hexdigest bytes)] /\
    chat_history db' = chat_history db /\
    credential db' u = Some (Sha256.hexdigest bytes) /\
    forall db2 u2 db2',
      create_user db2 u2 pwd = (db2', true) -> credential db2' u2 = credential db' u.
Proof.
  intros Hc. apply create_user_true in Hc as (bytes & Henc & Hfresh & ->).
  exists bytes. cbn [users chat_history]. repeat split; try assumption.
  - unfold credential. cbn [users]. now rewrite find_app_new.
  - intros db2 u2 db2' Hc2.
    apply create_user_true in Hc2 as (bytes2 & Henc2 & Hfresh2 & ->).
    rewrite Henc in Henc2. injection Henc2 as <-.
    unfold credential. cbn [users]. now rewrite !find_app_new.
Qed.

Lemma C9_stored_credential_witness :
  exists bytes,
    encode (lit "pw123") = Some bytes /\
    users alice_db = users create_tables
                       ++ [UserRow (next_rowid (users_seq create_tables)
                                      (map u_id (users create_tables)))
                                   (lit "alice") (Sha256.hexdigest bytes)] /\
    chat_history alice_db = chat_history create_tables /\
    credential alice_db (lit "alice") = Some (Sha256.hexdigest bytes) /\
    forall db2 u2 db2',
      create_user db2 u2 (lit "pw123") = (db2', true) ->
      credential db2' u2 = credential alice_db (lit "alice").
Proof.
  apply (C9_stored_credential create_tables (lit "alice") (lit "pw123") alice_db).
  vm_compute. reflexivity.
Defined.

(** C9, as stated, fails on "salted": two accounts signed up with the
    same password hold the same credential, the bare SHA-256 digest of
    that password. *)
Lemma C9_same_password_same_credential :
  create_user create_tables (lit "alice") (lit "pw123") = (alice_db, true) /\
  create_user alice_db (lit "bob") (lit "pw123") = (alice_bob_db, true) /\
  credential alice_bob_db (lit "alice")
  = Some (lit "23d47445adfb8991789b459b6ba1b974d727d310aa9d80b7c2875b9430c0ba25") /\
  credential alice_bob_db (lit "bob")
  = Some (lit "23d47445adfb8991789b459b6ba1b974d727d310aa9d80b7c2875b9430c0ba25") /\
  Some (Sha256.hexdigest (lit "pw123"))
  = Some (lit "23d47445adfb8991789b459b6ba1b974d727d310aa9d80b7c2875b9430c0ba25").
Proof. vm_compute. repeat split. Qed.

End AccountStore.

(** ** The conversation store *)

Section ConversationStore.

Lemma max_fold_ge seq ids : seq <= fold_right Z.max seq ids.
Proof. induction ids as [|x ids IH]; cbn [fold_right]; lia. Qed.

Lemma max_fold_in seq ids x : In x ids -> x <= fold_right Z.max seq ids.
Proof.
  induction ids as [|y ids IH]; cbn [fold_right In]; [tauto|].
  intros [->|H]; [lia|]. specialize (IH H). lia.
Qed.

Lemma max_fold_top seq ids : (forall x, In x ids -> x <= seq) -> fold_right Z.max seq ids = seq.
Proof.
  induction ids as [|y ids IH]; cbn [fold_right]; [reflexivity|].
  intros H. rewrite IH by (intros; apply H; now right).
  specialize (H y (or_introl eq_refl)). lia.
Qed.

Lemma next_rowid_above seq ids x : In x ids -> x < next_rowid seq ids.
Proof. intros H. apply (max_fold_in seq) in H. unfold next_rowid. lia. Qed.

(** The rowid after an insertion is the next integer. *)
Lemma next_rowid_succ seq ids :
  next_rowid (next_rowid seq ids) (ids ++ [next_rowid seq ids]) = next_rowid seq ids + 1.
Proof.
  unfold next_rowid at 1. f_equal. apply max_fold_top.
  intros x Hx. apply in_app_or in Hx as [Hx|[<-|[]]]; [|lia].
  apply (next_rowid_above seq) in Hx. lia.
Qed.

Lemma insert_by_id_snoc a m r :
  c_id a <= c_id r -> insert_by_id a (m ++ [r]) = insert_by_id a m ++ [r].
Proof.
  intros Hle. induction m as [|x m IH]; cbn [insert_by_id app].
  - apply Z.leb_le in Hle. now rewrite Hle.
  - destruct (c_id a <=? c_id x); [reflexivity|]. now rewrite IH.
Qed.

Lemma order_by_id_snoc l r :
  (forall x, In x l -> c_id x < c_id r) -> order_by_id (l ++ [r]) = order_by_id l ++ [r].
Proof.
  unfold order_by_id. induction l as [|a l IH]; intros H; cbn [fold_right app]; [reflexivity|].
  rewrite IH by (intros; apply H; now right).
  apply insert_by_id_snoc. specialize (H a (or_introl eq_refl)). lia.
Qed.

Lemma in_insert_by_id x r l : In x (insert_by_id r l) <-> x = r \/ In x l.
Proof.
  induction l as [|y l IH]; cbn [insert_by_id In].
  - split; intros [H|H]; auto.
  - destruct (c_id r <=? c_id y); cbn [In]; [|rewrite IH]; intuition congruence.
Qed.

Lemma in_order_by_id x l : In x (order_by_id l) <-> In x l.
Proof.
  unfold order_by_id. induction l as [|y l IH]; cbn [fold_right In]; [tauto|].
  rewrite in_insert_by_id, IH. intuition congruence.
Qed.

(** One [INSERT] seen through [get_chat_history]. *)
Lemma get_chat_history_insert db ts uid m flag uid' :
  get_chat_history (insert_chat db ts uid m flag) uid'
  = get_chat_history db uid' ++ (if uid =? uid' then [record_dict m flag ts] else []).
Proof.
  unfold get_chat_history, insert_chat. cbn [chat_history].
  rewrite List.filter_app. cbn [List.filter c_user_id].
  destruct (uid =? uid'); [|now rewrite !app_nil_r].
  rewrite order_by_id_snoc.
  - now rewrite map_app.
  - intros x Hx. apply List.filter_In in Hx as [Hx _]. cbn [c_id].
    apply next_rowid_above. now apply in_map.
Qed.

Lemma get_chat_history_save db stamps uid msg resp uid' :
  get_chat_history (save_chat db stamps uid msg resp) uid'
  = get_chat_history db uid'
    ++ (if uid =? uid' then call_records (Call stamps uid msg resp) else []).
Proof.
  unfold save_chat. rewrite !get_chat_history_insert.
  destruct (uid =? uid'); [|now rewrite !app_nil_r].
  now rewrite <- app_assoc.
Qed.

Lemma create_user_chat db u p :
  chat_history (fst (create_user db u p)) = chat_history db
  /\ chat_seq (fst (create_user db u p)) = chat_seq db.
Proof.
  unfold create_user, insert_user.
  destruct (hash_password p); [|now split].
  destruct (bindable u); [|now split].
  destruct (existsb _ _); now split.
Qed.

Lemma get_chat_history_op db o uid :
  get_chat_history (apply_op db o) uid
  = get_chat_history db uid ++ flat_map call_records (calls_for uid [o]).
Proof.
  destruct o as [u p|[stamps cu m r]]; cbn [apply_op calls_for].
  - unfold get_chat_history. destruct (create_user_chat db u p) as [-> _].
    cbn [flat_map]. now rewrite app_nil_r.
  - cbn [call_stamps call_user call_msg call_resp].
    rewrite get_chat_history_save.
    destruct (cu =? uid); cbn [flat_map]; now rewrite ?app_nil_r.
Qed.

Lemma calls_for_app uid ops1 ops2 :
  calls_for uid (ops1 ++ ops2) = calls_for uid ops1 ++ calls_for uid ops2.
Proof.
  induction ops1 as [|[u p|c] ops1 IH]; cbn [calls_for app]; [reflexivity|exact IH|].
  destruct (call_user c =? uid); cbn [app]; now rewrite IH.
Qed.

Lemma get_chat_history_ops ops : forall db uid,
  get_chat_history (run_ops db ops) uid
  = get_chat_history db uid ++ flat_map call_records (calls_for uid ops).
Proof.
  induction ops as [|o ops IH]; intros db uid.
  - cbn. now rewrite app_nil_r.
  - change (run_ops db (o :: ops)) with (run_ops (apply_op db o) ops).
    rewrite IH, get_chat_history_op.
    change (o :: ops) with ([o] ++ ops).
    now rewrite calls_for_app, flat_map_app, app_assoc.
Qed.

Lemma length_call_records cs :
  length (flat_map call_records cs) = (2 * length cs)%nat.
Proof. induction cs as [|c cs IH]; cbn [flat_map call_records length app]; lia. Qed.

(** C3.  After any sequence of database calls, [get_chat_history] for an
    account returns what it returned before followed by the two records
    (message with [is_user] 1, reply with [is_user] 0) of each
    [save_chat] call made for that account, in call order.  On a fresh
    database that is exactly 2N records for N calls, and the empty list
    for an account without calls. *)
Theorem C3_history_after_appends db ops uid :
  get_chat_history (run_ops db ops) uid
  = get_chat_history db uid ++ flat_map call_records (calls_for uid ops)
  /\ get_chat_history (run_ops create_tables ops) uid
     = flat_map call_records (calls_for uid ops)
  /\ length (get_chat_history (run_ops create_tables ops) uid)
     = (2 * length (calls_for uid ops))%nat
  /\ get_chat_history create_tables uid = [].
Proof.
  split; [apply get_chat_history_ops|].
  assert (H : get_chat_history (run_ops create_tables ops) uid
              = flat_map call_records (calls_for uid ops))
    by (now rewrite get_chat_history_ops).
  split; [exact H|]. split; [|reflexivity].
  rewrite H. apply length_call_records.
Qed.

Lemma calls_for_without A B ops :
  A <> B -> calls_for A (without_calls_for B ops) = calls_for A ops.
Proof.
  intros Hne. unfold without_calls_for.
  induction ops as [|[u p|c] ops IH]; cbn [List.filter calls_for]; [reflexivity|exact IH|].
  destruct (call_user c =? B) eqn:HB; cbn [negb calls_for].
  - apply Z.eqb_eq in HB. destruct (call_user c =? A) eqn:HA; [|exact IH].
    apply Z.eqb_eq in HA. congruence.
  - now rewrite IH.
Qed.

(** C8.  For two distinct accounts A and B, a [save_chat] for B leaves
    the result of [get_chat_history] for A as it was; after any sequence
    of calls the history of A is the one obtained with the calls for B
    left out; and every record returned for A comes from a row whose
    [user_id] is A. *)
Theorem C8_histories_isolated db A B stamps msg resp ops :
  A <> B ->
  get_chat_history (save_chat db stamps B msg resp) A = get_chat_history db A
  /\ get_chat_history (run_ops db ops) A
     = get_chat_history (run_ops db (without_calls_for B ops)) A
  /\ Forall (fun d => exists r, In r (chat_history (run_ops db ops))
                               /\ c_user_id r = A /\ d = row_dict r)
            (get_chat_history (run_ops db ops) A).
Proof.
  intros Hne. split; [|split].
  - rewrite get_chat_history_save.
    destruct (B =? A) eqn:E; [apply Z.eqb_eq in E; congruence|apply app_nil_r].
  - now rewrite !get_chat_history_ops, calls_for_without.
  - apply List.Forall_forall. intros d Hd.
    unfold get_chat_history in Hd. apply in_map_iff in Hd as (r & <- & Hr).
    apply in_order_by_id, List.filter_In in Hr as [Hr Hu].
    exists r. repeat split; [exact Hr | now apply Z.eqb_eq].
Qed.

Lemma C8_histories_isolated_witness :
  1 <> 2
  /\ get_chat_history
       (save_chat alice_bob_db (stamps demo_env) 2 (lit "hello") (lit "hi")) 1
     = get_chat_history alice_bob_db 1
  /\ get_chat_history
       (run_ops alice_bob_db
          [SaveChat (Call (stamps demo_env) 1 (lit "a1") (lit "r1"));
           SaveChat (Call (stamps demo_env) 2 (lit "b1") (lit "r2"))]) 1
     = get_chat_history
         (run_ops alice_bob_db
            (without_calls_for 2
               [SaveChat (Call (stamps demo_env) 1 (lit "a1") (lit "r1"));
                SaveChat (Call (stamps demo_env) 2 (lit "b1") (lit "r2"))])) 1
  /\ Forall (fun d => exists r,
                 In r (chat_history
                         (run_ops alice_bob_db
                            [SaveChat (Call (stamps demo_env) 1 (lit "a1") (lit "r1"));
                             SaveChat (Call (stamps demo_env) 2 (lit "b1") (lit "r2"))]))
                 /\ c_user_id r = 1 /\ d = row_dict r)
            (get_chat_history
               (run_ops alice_bob_db
                  [SaveChat (Call (stamps demo_env) 1 (lit "a1") (lit "r1"));
                   SaveChat (Call (stamps demo_env) 2 (lit "b1") (lit "r2"))]) 1).
Proof.
  split; [lia|].
  apply (C8_histories_isolated alice_bob_db 1 2 (stamps demo_env) (lit "hello") (lit "hi")).
  lia.
Defined.

End ConversationStore.

(** ** Pairs under transactions *)

Section Pairs.
Import Txn.

(** Induction over a list two elements at a time. *)
Lemma list_pair_ind {A} (P : list A -> Prop) :
  P [] -> (forall x, P [x]) -> (forall x y l, P l -> P (x :: y :: l)) ->
  forall l, P l.
Proof.
  intros Hnil Hone Hstep l.
  assert (H : P l /\ forall x, P (x :: l)); [|exact (proj1 H)].
  induction l as [|y l [IH1 IH2]]; split; auto.
Qed.

Lemma paired_app l l' : paired l = true -> paired (l ++ l') = paired l'.
Proof.
  induction l as [|x|u a rest IH] using list_pair_ind; cbn [paired app];
    [reflexivity|discriminate|].
  intros H. apply andb_true_iff in H as [H Hrest]. rewrite H. now apply IH.
Qed.

(** [save_chat] appends one pair. *)
Lemma chat_history_save db stamps uid msg resp :
  exists u a,
    chat_history (save_chat db stamps uid msg resp) = chat_history db ++ [u; a]
    /\ u = ChatRow (next_rowid (chat_seq db) (map c_id (chat_history db)))
                   uid msg 1 (fst stamps)
    /\ a = ChatRow (c_id u + 1) uid resp 0 (snd stamps).
Proof.
  eexists _, _. split; [|split; reflexivity].
  unfold save_chat, insert_chat. cbn [chat_history chat_seq c_id].
  rewrite <- app_assoc. cbn [app]. rewrite map_app. cbn [map c_id].
  now rewrite next_rowid_succ.
Qed.

Lemma paired_save db stamps uid msg resp :
  paired (chat_history db) = true ->
  paired (chat_history (save_chat db stamps uid msg resp)) = true.
Proof.
  intros H. destruct (chat_history_save db stamps uid msg resp) as (u & a & -> & -> & ->).
  rewrite paired_app by exact H. cbn [paired c_is_user c_user_id c_id].
  now rewrite !Z.eqb_refl.
Qed.

(** What the pairing says row by row. *)
Lemma paired_rows rows :
  paired rows = true ->
  (forall (i : nat) a, rows !! i = Some a -> c_is_user a = 0 ->
     exists j u, i = S j /\ rows !! j = Some u /\ c_is_user u = 1
                 /\ c_user_id u = c_user_id a /\ c_id a = c_id u + 1)
  /\ (forall (i : nat) u, rows !! i = Some u -> c_is_user u = 1 ->
        exists a, rows !! S i = Some a /\ c_is_user a = 0
                  /\ c_user_id a = c_user_id u /\ c_id a = c_id u + 1)
  /\ (forall r, In r rows -> c_is_user r = 0 \/ c_is_user r = 1).
Proof.
  induction rows as [|x|u a rest IH] using list_pair_ind; cbn [paired];
    [intros _|discriminate|].
  - repeat split; intros; try discriminate. contradiction.
  - intros H. repeat (apply andb_true_iff in H as [H ?]).
    apply Z.eqb_eq in H.
    repeat match goal with E : (_ =? _) = true |- _ => apply Z.eqb_eq in E end.
    destruct (IH ltac:(assumption)) as (IHa & IHu & IHf).
    split; [|split].
    + intros [|[|i]] r Hi Hr; cbn in Hi.
      * injection Hi as <-. lia.
      * injection Hi as <-. exists 0%nat, u. auto.
      * destruct (IHa i r Hi Hr) as (j & u' & -> & Hj & ?). exists (S (S j)), u'. auto.
    + intros [|[|i]] r Hi Hr; cbn in Hi.
      * injection Hi as <-. exists a. auto.
      * injection Hi as <-. lia.
      * destruct (IHu i r Hi Hr) as (a' & Ha' & ?). exists a'. auto.
    + intros r [<-|[<-|Hr]]; auto.
Qed.

Lemma insert_user_chat db name hash db' :
  insert_user db name hash = Some db' -> chat_history db' = chat_history db.
Proof.
  unfold insert_user. destruct (bindable name); [|discriminate].
  destruct (existsb _ _); [discriminate|]. now intros [= <-].
Qed.

Lemma store_inv_step l s : store_inv s -> store_inv (step l s).
Proof.
  intros [Hc Hw]. destruct s as [db w]. cbn [committed writer] in *.
  destruct l as [stamps uid msg resp|name pwd| | |]; unfold step; cbn [committed writer].
  - destruct w as [[v rest]|]; [now split|].
    split; [exact Hc|]. cbn [writer exec_all save_chat_stmts exec].
    intros v' [= <-]. apply (paired_save db stamps uid msg resp Hc).
  - destruct w as [[v rest]|]; [now split|].
    destruct (hash_password pwd) as [h|e]; [|now split].
    split; [exact Hc|]. cbn [writer exec_all exec].
    intros v'. destruct (insert_user db name h) eqn:E; [|discriminate].
    intros [= <-]. now rewrite (insert_user_chat _ _ _ _ E).
  - destruct w as [[v [|st rest]]|]; [now split| |now split].
    destruct (exec st v) as [v1|] eqn:E; [|now split].
    split; [exact Hc|]. cbn [writer]. intros v' Hv'. apply Hw.
    cbn [exec_all]. now rewrite E.
  - destruct w as [[v [|st rest]]|]; [|now split..].
    split; [|exact I]. cbn [committed]. now apply Hw.
  - destruct w as [[v rest]|]; now split.
Qed.

Lemma store_inv_run ls : forall s, store_inv s -> store_inv (run ls s).
Proof.
  unfold run. induction ls as [|l ls IH]; intros s Hs; cbn [fold_left]; [exact Hs|].
  apply IH, store_inv_step, Hs.
Qed.

(** The steps of one uninterrupted [save_chat] amount to the function. *)
Lemma run_save_chat db stamps uid msg resp :
  run [BeginSaveChat stamps uid msg resp; Execute; Execute; Commit] (Store db None)
  = Store (save_chat db stamps uid msg resp) None.
Proof. reflexivity. Qed.

(** And those of a [create_user] that goes through. *)
Lemma run_create_user db u pwd db' :
  create_user db u pwd = (db', true) ->
  run [BeginCreateUser u pwd; Execute; Commit] (Store db None) = Store db' None.
Proof.
  unfold create_user, run. cbn [fold_left]. unfold step at 3. cbn [writer committed].
  destruct (hash_password pwd) as [h|]; [|discriminate].
  unfold step at 2. cbn [writer committed exec].
  destruct (insert_user db u h); [|discriminate]. now intros [= <-].
Qed.

(** C4.  In every state the store reaches from a fresh database, whatever
    the interleaving of begun, half-run, committed and dropped calls, the
    committed [chat_history] rows (all that a reader can see) are paired:
    each reply row directly follows a user row of the same account with
    the preceding rowid, and each user row is directly followed by its
    reply row. *)
Theorem C4_pairs_never_partial ls :
  let rows := chat_history (committed (run ls initial)) in
  paired rows = true
  /\ (forall (i : nat) a, rows !! i = Some a -> c_is_user a = 0 ->
        exists j u, i = S j /\ rows !! j = Some u /\ c_is_user u = 1
                    /\ c_user_id u = c_user_id a /\ c_id a = c_id u + 1)
  /\ (forall (i : nat) u, rows !! i = Some u -> c_is_user u = 1 ->
        exists a, rows !! S i = Some a /\ c_is_user a = 0
                  /\ c_user_id a = c_user_id u /\ c_id a = c_id u + 1)
  /\ (forall r, In r rows -> c_is_user r = 0 \/ c_is_user r = 1).
Proof.
  intros rows.
  assert (H : paired rows = true).
  { apply (store_inv_run ls initial). split; [reflexivity|exact I]. }
  split; [exact H|]. apply paired_rows, H.
Qed.

(** A half-run [save_chat] is invisible: the reader still sees the
    history as it was before the call began. *)
Lemma half_run_invisible db stamps uid msg resp uid' :
  read_history (run [BeginSaveChat stamps uid msg resp; Execute] (Store db None)) uid'
  = get_chat_history db uid'.
Proof. reflexivity. Qed.

End Pairs.

(** ** The context builder *)

Section ContextBuilder.

Lemma getitem_exchange_message m r : getitem (exchange_dict m r) "message" = Ok (VStr m).
Proof. reflexivity. Qed.

Lemma getitem_exchange_response m r : getitem (exchange_dict m r) "response" = Ok (VStr r).
Proof. reflexivity. Qed.

Lemma getitem_row_message r : getitem (row_dict r) "message" = Ok (VStr (c_message r)).
Proof. reflexivity. Qed.

Lemma getitem_row_response r : getitem (row_dict r) "response" = Raise (KeyError "response").
Proof. reflexivity. Qed.

Lemma getitem_exchange_is_user m r :
  getitem (exchange_dict m r) "is_user" = Raise (KeyError "is_user").
Proof. reflexivity. Qed.

(** The keys of the two kinds of record the program puts in the session
    history. *)
Lemma dom_row_dict r : dom (row_dict r) = ({["message"; "is_user"; "timestamp"]} : gset string).
Proof.
  unfold row_dict, record_dict. rewrite !dom_insert_L, dom_empty_L. set_solver.
Qed.

Lemma dom_exchange_dict m r : dom (exchange_dict m r) = ({["message"; "response"]} : gset string).
Proof.
  unfold exchange_dict. rewrite !dom_insert_L, dom_empty_L. set_solver.
Qed.

Lemma last_n_map {A B} (f : A -> B) n l : last_n n (map f l) = map f (last_n n l).
Proof. unfold last_n. now rewrite length_map, skipn_map. Qed.

Lemma add_exchanges_exchanges exs : forall context,
  add_exchanges context (map (fun ex => exchange_dict (fst ex) (snd ex)) exs)
  = Ok (context ++ flat_map exchange_lines exs).
Proof.
  induction exs as [|[m r] exs IH]; intros context; cbn [map add_exchanges flat_map fst snd].
  - now rewrite app_nil_r.
  - rewrite getitem_exchange_message, getitem_exchange_response, IH.
    cbn [format_value]. unfold exchange_lines; cbn [fst snd].
    f_equal. now rewrite <- !app_assoc.
Qed.

(** The empty list takes the same path as any other list: the loop runs
    over its last three entries. *)
Lemma build_context_some message h :
  build_context message (Some h)
  = match add_exchanges (lit "You are a helpful career counsellor." ++ nl) (last_n 3 h) with
    | Raise e => Raise e
    | Ok context' => Ok (context' ++ lit "User: " ++ message ++ nl ++ lit "Assistant:")
    end.
Proof. destruct h; reflexivity. Qed.

(** On a history made of exchanges, the shape the send handler appends,
    the prompt is the preamble, the last three exchanges and the new
    message with the open "Assistant:" marker. *)
Lemma build_context_exchanges exs message :
  build_context message (Some (map (fun ex => exchange_dict (fst ex) (snd ex)) exs))
  = Ok (prompt_of (last_n 3 exs) message).
Proof.
  rewrite build_context_some, last_n_map, add_exchanges_exchanges.
  unfold prompt_of. now rewrite <- !app_assoc.
Qed.

Lemma build_context_empty message :
  build_context message None = Ok (prompt_of [] message)
  /\ build_context message (Some []) = Ok (prompt_of [] message).
Proof. split; reflexivity. Qed.

(** A record without the key "response" among the entries visited stops
    the loop with a [KeyError]. *)
Lemma add_exchanges_missing_key hs : forall context h,
  In h hs -> h !! "response" = None ->
  exists k, (k = "message" \/ k = "response")
            /\ add_exchanges context hs = Raise (KeyError k).
Proof.
  induction hs as [|h' hs IH]; intros context h Hin Hresp; [contradiction|].
  cbn [add_exchanges]. unfold getitem at 1.
  destruct (h' !! "message") as [m|]; [|exists "message"; auto].
  unfold getitem at 1.
  destruct (h' !! "response") as [r|] eqn:Hr; [|exists "response"; auto].
  destruct Hin as [->|Hin]; [congruence|]. eapply IH; eauto.
Qed.

Lemma add_exchanges_missing_response hs : forall context h,
  In h hs -> h !! "response" = None ->
  Forall (fun d => is_Some (d !! "message")) hs ->
  add_exchanges context hs = Raise (KeyError "response").
Proof.
  induction hs as [|h' hs IH]; intros context h Hin Hresp Hall; [contradiction|].
  inversion Hall as [|? ? [m Hm] Hall']; subst.
  cbn [add_exchanges]. unfold getitem at 1. rewrite Hm.
  unfold getitem at 1.
  destruct (h' !! "response") as [r|] eqn:Hr; [|reflexivity].
  destruct Hin as [->|Hin]; [congruence|]. eapply IH; eauto.
Qed.

Lemma get_response_raise E message history e w :
  build_context message history = Raise e ->
  get_response E message history w = (Raise e, w).
Proof. intros H. unfold get_response, bind, lift. now rewrite H. Qed.

Lemma in_last_n_nonempty {A} (x : A) n l : In x (last_n n l) -> l <> [].
Proof. intros H ->. destruct n; exact H. Qed.

Lemma in_last_n {A} (x : A) n l : In x (last_n n l) -> In x l.
Proof.
  unfold last_n. intros H.
  rewrite <- (firstn_skipn (length l - n) l). apply in_or_app. now right.
Qed.

Lemma Forall_last_n {A} (P : A -> Prop) n l : Forall P l -> Forall P (last_n n l).
Proof.
  intros H. apply List.Forall_forall. intros x Hx.
  rewrite List.Forall_forall in H. apply H. eapply in_last_n, Hx.
Qed.

Lemma demo_history_records :
  demo_history
  = [record_dict (lit "What careers suit a biology graduate?") 1 (lit "2024-05-01 10:00:00");
     record_dict (lit "Consider biotechnology.") 0 (lit "2024-05-01 10:00:00")].
Proof. by_compute. Qed.

(** C10.  The records [get_chat_history] returns have the keys
    "message", "is_user" and "timestamp", those the send handler appends
    have "message" and "response".  Whenever one of the last three
    entries of the history is a record loaded from the store,
    [get_response] raises a [KeyError] before the model is called and
    changes nothing; when every entry has the key "message", as the
    records of both shapes do, the missing key is "response". *)
Theorem C10_stored_record_raises E message hist r w :
  In (row_dict r) (last_n 3 hist) ->
  dom (row_dict r) = ({["message"; "is_user"; "timestamp"]} : gset string)
  /\ (forall m p, dom (exchange_dict m p) = ({["message"; "response"]} : gset string))
  /\ (exists k, (k = "message" \/ k = "response")
                /\ get_response E message (Some hist) w = (Raise (KeyError k), w))
  /\ (Forall (fun d => is_Some (d !! "message")) hist ->
      get_response E message (Some hist) w = (Raise (KeyError "response"), w)).
Proof.
  intros Hin. split; [apply dom_row_dict|]. split; [intros; apply dom_exchange_dict|].
  pose proof (in_last_n_nonempty _ _ _ Hin) as Hne.
  destruct hist as [|h0 hist]; [congruence|].
  split.
  - destruct (add_exchanges_missing_key (last_n 3 (h0 :: hist))
                (lit "You are a helpful career counsellor." ++ nl) _ Hin eq_refl)
      as (k & Hk & Hraise).
    exists k. split; [exact Hk|]. apply get_response_raise.
    unfold build_context. now rewrite Hraise.
  - intros Hall. apply get_response_raise. unfold build_context.
    now rewrite (add_exchanges_missing_response _ _ _ Hin eq_refl (Forall_last_n _ 3 _ Hall)).
Qed.

Lemma C10_stored_record_raises_witness :
  In (row_dict (ChatRow 2 1 (lit "Consider biotechnology.") 0 (lit "2024-05-01 10:00:00")))
     (last_n 3 demo_history)
  /\ (exists k, (k = "message" \/ k = "response")
                /\ get_response demo_env (lit "next") (Some demo_history) initial_world
                   = (Raise (KeyError k), initial_world))
  /\ (Forall (fun d => is_Some (d !! "message")) demo_history ->
      get_response demo_env (lit "next") (Some demo_history) initial_world
      = (Raise (KeyError "response"), initial_world)).
Proof.
  assert (H : In (row_dict (ChatRow 2 1 (lit "Consider biotechnology.") 0
                                    (lit "2024-05-01 10:00:00")))
                 (last_n 3 demo_history))
    by (rewrite demo_history_records; right; left; reflexivity).
  split; [exact H|].
  exact (proj2 (proj2 (C10_stored_record_raises demo_env (lit "next") demo_history _
                         initial_world H))).
Defined.

End ContextBuilder.

(** ** The handlers *)

Section Handlers.

Lemma lstrip_spaces msg : forallb isspace msg = true -> lstrip msg = [].
Proof.
  induction msg as [|c msg IH]; cbn [forallb lstrip]; [reflexivity|].
  intros H. apply andb_true_iff in H as [-> H]. exact (IH H).
Qed.

Lemma strip_spaces msg : forallb isspace msg = true -> strip msg = [].
Proof. intros H. unfold strip. now rewrite (lstrip_spaces _ H). Qed.

Lemma send_handler_blank E msg w :
  forallb isspace msg = true -> send_handler E msg w = (Ok tt, w).
Proof. intros H. unfold send_handler. now rewrite (strip_spaces _ H). Qed.

Lemma quiet_not_save evs :
  forallb quiet evs = true -> existsb is_save evs = false /\ existsb is_reply evs = false.
Proof.
  induction evs as [|e evs IH]; cbn [forallb existsb]; [now split|].
  intros H. apply andb_true_iff in H as [He H]. destruct (IH H) as [-> ->].
  destruct e as [| | | |p [|]|]; cbn in *; try discriminate; now split.
Qed.

(** The display loop only writes to the page. *)
Lemma display_history_effect hs : forall db s log,
  exists r evs,
    display_history hs (World db s log) = (r, World db s (log ++ evs))
    /\ forallb quiet evs = true.
Proof.
  induction hs as [|h hs IH]; intros db s log; cbn [display_history].
  - exists (Ok tt), []. now rewrite app_nil_r.
  - unfold bind at 1, lift at 1.
    destruct (getitem h "is_user") as [flag|e];
      [|exists (Raise e), []; now rewrite app_nil_r].
    unfold bind at 1, lift at 1.
    destruct (getitem h "message") as [m|e];
      [|exists (Raise e), []; now rewrite app_nil_r].
    unfold bind at 1, emit at 1. cbn [w_db w_session w_log].
    match goal with |- context [World db s (log ++ [?ev])] =>
      destruct (IH db s (log ++ [ev])) as (r & evs & -> & Hq); exists r, (ev :: evs)
    end.
    split; [now rewrite <- app_assoc | exact Hq].
Qed.

(** A run with no widget pressed only writes to the page. *)
Lemma script_no_action E db s log :
  exists r evs,
    script E NoAction (World db s log) = (r, World db s (log ++ evs))
    /\ forallb quiet evs = true.
Proof.
  destruct s as [[usr|] open hist]; unfold script, bind, get_session, ret, emit;
    cbn [w_db w_session w_log user chat_open history].
  - destruct open.
    + unfold chat_popup, bind, emit, get_session, ret. cbn [w_db w_session w_log history].
      match goal with |- context [display_history hist (World ?d ?s ?l)] =>
        destruct (display_history_effect hist d s l) as (r & evs & -> & Hq)
      end.
      destruct r as [[]|e].
      * eexists _, (_ :: _ :: _ :: evs ++ [_]). split.
        -- cbn [w_db w_session w_log]. rewrite <- !app_assoc. reflexivity.
        -- cbn [forallb quiet andb]. rewrite forallb_app, Hq. reflexivity.
      * eexists _, (_ :: _ :: _ :: evs). split.
        -- rewrite <- !app_assoc. reflexivity.
        -- exact Hq.
    + eexists _, [_]. split; reflexivity.
  - exists (Ok tt), []. now rewrite app_nil_r.
Qed.

Lemma send_outcome_extend E msg w w1 w2 evs evs2 :
  send_outcome E msg w w1 evs ->
  w_db w2 = w_db w1 -> w_session w2 = w_session w1 ->
  forallb quiet evs2 = true ->
  send_outcome E msg w w2 (evs ++ evs2).
Proof.
  intros [(Hs & Hr & Hdb & Hse)|(pre & post & p & reply & usr & -> & Hpre & Hpost & Hb & Hg & Hu & Hdb & Hh)]
         Hdb2 Hse2 Hq.
  - left. rewrite !existsb_app, Hs, Hr. destruct (quiet_not_save _ Hq) as [-> ->].
    repeat split; congruence.
  - right. exists pre, (post ++ evs2), p, reply, usr.
    rewrite forallb_app, Hpost, Hq, <- !app_assoc. cbn [app].
    repeat split; try assumption; congruence.
Qed.

Lemma send_outcome_prefix E msg db s log log' w' evs pre :
  send_outcome E msg (World db s log') w' evs ->
  forallb quiet pre = true ->
  send_outcome E msg (World db s log) w' (pre ++ evs).
Proof.
  intros [(Hs & Hr & Hdb & Hse)|(pre' & post & p & reply & usr & -> & Hpre & Hpost & Hb & Hg & Hu & Hdb & Hh)]
         Hq.
  - left. rewrite !existsb_app, Hs, Hr. destruct (quiet_not_save _ Hq) as [-> ->].
    now repeat split.
  - right. exists (pre ++ pre'), post, p, reply, usr.
    rewrite forallb_app, Hq, Hpre, <- !app_assoc.
    now repeat split.
Qed.

(** The send handler, case by case. *)
Lemma send_handler_outcome E msg db usr open hist log :
  exists r w' evs,
    send_handler E msg (World db (Session (Some usr) open hist) log) = (r, w')
    /\ w_log w' = log ++ evs
    /\ send_outcome E msg (World db (Session (Some usr) open hist) log) w' evs.
Proof.
  unfold send_handler. destruct (truthy (strip msg)).
  2:{ eexists _, _, []. split; [reflexivity|]. cbn [w_log]. rewrite app_nil_r.
      split; [reflexivity|]. left. now repeat split. }
  unfold bind at 1, get_session at 1. cbn [w_session history].
  unfold bind at 1. unfold get_response, bind at 1, lift at 1.
  destruct (build_context msg (Some hist)) as [prompt|e] eqn:Hb.
  2:{ eexists _, _, []. split; [reflexivity|]. cbn [w_log]. rewrite app_nil_r.
      split; [reflexivity|]. left. now repeat split. }
  unfold bind at 1, emit at 1. cbn [w_db w_session w_log].
  unfold bind at 1, lift at 1.
  destruct (generate_content E prompt) as [reply|e] eqn:Hg.
  2:{ eexists _, _, [_]. split; [reflexivity|]. split; [reflexivity|].
      left. now repeat split. }
  unfold ret at 1.
  unfold bind, get_session, put_session, lift, session_user_id, emit, get_db, put_db, rerun, raise.
  cbn [w_db w_session w_log user chat_open history].
  eexists _, _, [_; _]. split; [reflexivity|].
  split; [cbn [w_log]; now rewrite <- app_assoc|].
  right. exists [], [], prompt, reply, usr. cbn [w_db w_session user history app forallb].
  now repeat split.
Qed.

(** A script run with Send pressed. *)
Lemma script_send_outcome E msg w :
  exists r w' evs,
    script E (Send msg) w = (r, w')
    /\ w_log w' = w_log w ++ evs
    /\ send_outcome E msg w w' evs.
Proof.
  destruct w as [db [[usr|] open hist] log];
    unfold script, bind, get_session, ret, emit;
    cbn [w_db w_session w_log user chat_open history].
  2:{ eexists _, _, []. split; [reflexivity|]. cbn [w_log]. rewrite app_nil_r.
      split; [reflexivity|]. left. now repeat split. }
  destruct open.
  2:{ eexists _, _, [_]. split; [reflexivity|]. split; [reflexivity|].
      left. now repeat split. }
  unfold chat_popup, bind, emit, get_session, ret. cbn [w_db w_session w_log history].
  match goal with |- context [display_history hist (World ?d ?s ?l)] =>
    destruct (display_history_effect hist d s l) as (r & evs & -> & Hq)
  end.
  destruct r as [[]|e].
  2:{ eexists _, _, (_ :: _ :: _ :: evs). split; [reflexivity|].
      split; [cbn [w_log]; now rewrite <- !app_assoc|].
      left. cbn [existsb is_save is_reply orb w_db w_session].
      destruct (quiet_not_save _ Hq) as [-> ->]. now repeat split. }
  match goal with |- context [send_handler E msg (World db ?s ?l)] =>
    destruct (send_handler_outcome E msg db usr true hist l) as (r & w' & evs' & -> & Hlog & Hout)
  end.
  set (pre := SidebarWrite ([128075] ++ lit " Welcome, " ++ username usr)
              :: Markdown (lit "<div class=" ++ quote ++ lit "chat-popup" ++ quote ++ lit ">")
              :: Markdown (lit "### CareerBot Chat") :: evs).
  assert (Hpre : forallb quiet pre = true) by exact Hq.
  assert (Hlog' : w_log w' = log ++ pre ++ evs').
  { rewrite Hlog. unfold pre. rewrite <- !app_assoc. reflexivity. }
  pose proof (send_outcome_prefix E msg db _ log _ _ _ _ Hout Hpre) as Hout'.
  destruct r as [[]|e].
  - exists (Ok tt), (World (w_db w') (w_session w') (w_log w' ++ [Markdown (lit "</div>")])),
      (pre ++ evs' ++ [Markdown (lit "</div>")]).
    split; [reflexivity|]. split.
    + cbn [w_log]. rewrite Hlog', <- !app_assoc. reflexivity.
    + rewrite app_assoc. eapply send_outcome_extend; [exact Hout'|reflexivity..].
  - exists (Raise e), w', (pre ++ evs').
    split; [reflexivity|]. split; [exact Hlog' | exact Hout'].
Qed.

(** C7.  Whatever the model does and whatever the state, an interaction
    that presses Send either hands nothing to [save_chat] and leaves the
    database and the session as they were, or it first receives a reply
    from the model and then, next to each other in the log, the model
    call that returned the reply and the one [save_chat] of the message
    and that reply.  In particular, when the model never returns a
    reply, database and session are unchanged. *)
Theorem C7_persist_only_after_reply E msg w :
  let w' := snd (interact E (Send msg) w) in
  (exists evs, w_log w' = w_log w ++ evs /\ send_outcome E msg w w' evs)
  /\ ((forall prompt reply, generate_content E prompt <> Ok reply) ->
      w_db w' = w_db w /\ w_session w' = w_session w).
Proof.
  intros w'.
  assert (H : exists evs, w_log w' = w_log w ++ evs /\ send_outcome E msg w w' evs).
  { subst w'. unfold interact.
    destruct (script_send_outcome E msg w) as (r & w1 & evs & -> & Hlog & Hout).
    assert (Hsame : exists evs, w_log w1 = w_log w ++ evs /\ send_outcome E msg w w1 evs)
      by (exists evs; now split).
    destruct r as [[]|e]; [exact Hsame|].
    destruct e; try exact Hsame.
    destruct w1 as [db1 s1 log1].
    destruct (script_no_action E db1 s1 log1) as (r2 & evs2 & -> & Hq).
    exists (evs ++ evs2). cbn [snd w_log] in *. split.
    - now rewrite Hlog, <- app_assoc.
    - eapply send_outcome_extend; [exact Hout|reflexivity..|exact Hq]. }
  split; [exact H|].
  intros Hfail. destruct H as (evs & _ & [(_ & _ & Hdb & Hse)|Hb]); [now split|].
  destruct Hb as (pre & post & p & reply & usr & _ & _ & _ & _ & Hg & _).
  now apply Hfail in Hg.
Qed.

(** C6, as amended.  A message that is empty or made of whitespace only
    makes the send handler do nothing: no prompt is built, the model is
    not called, nothing is saved, no error is raised; the script run is
    the run with no button pressed. *)
Theorem C6_blank_message_ignored E msg w :
  forallb isspace msg = true ->
  send_handler E msg w = (Ok tt, w)
  /\ script E (Send msg) w = script E NoAction w
  /\ interact E (Send msg) w = interact E NoAction w.
Proof.
  intros Hblank.
  assert (Hscript : forall w0, script E (Send msg) w0 = script E NoAction w0).
  { intros [db [[usr|] open hist] log];
      unfold script, bind, get_session, ret, emit;
      cbn [w_db w_session w_log user chat_open history]; [|reflexivity].
    destruct open; [|reflexivity].
    unfold chat_popup, bind, emit, get_session, ret. cbn [w_db w_session w_log history].
    destruct (display_history hist _) as [[[]|e] w1]; [|reflexivity].
    now rewrite (send_handler_blank E msg w1 Hblank). }
  split; [now apply send_handler_blank|]. split; [apply Hscript|].
  unfold interact. now rewrite Hscript.
Qed.

Lemma C6_blank_message_ignored_witness :
  forallb isspace (lit "   ") = true
  /\ send_handler demo_env (lit "   ") initial_world = (Ok tt, initial_world)
  /\ script demo_env (Send (lit "   ")) initial_world = script demo_env NoAction initial_world
  /\ interact demo_env (Send (lit "   ")) initial_world
     = interact demo_env NoAction initial_world.
Proof.
  split; [reflexivity|].
  apply (C6_blank_message_ignored demo_env (lit "   ") initial_world). reflexivity.
Defined.

(** C6, as stated, fails: the builder itself accepts a blank message.
    It raises no error, builds the prompt with an empty user turn, and
    [get_response] sends that prompt to the model. *)
Lemma C6_blank_prompt_built :
  build_context [] (Some []) = Ok (prompt_of [] [])
  /\ build_context (lit "   ") None = Ok (prompt_of [] (lit "   "))
  /\ get_response demo_env (lit "   ") None initial_world
     = (Ok (lit "Consider biotechnology."),
        World create_tables (Session None false [])
              [Generate (prompt_of [] (lit "   ")) (Ok (lit " Consider biotechnology. "))]).
Proof. repeat split. Qed.

(** C1, on the code: the history a login loads from the store makes the
    builder fail.  After one saved exchange the loaded history holds two
    records without the key "response"; building the prompt for the next
    message raises [KeyError], and in the whole session the model is
    called for the first message only. *)
Theorem C1_stored_history_breaks_prompt :
  demo_history
  = [record_dict (lit "What careers suit a biology graduate?") 1 (lit "2024-05-01 10:00:00");
     record_dict (lit "Consider biotechnology.") 0 (lit "2024-05-01 10:00:00")]
  /\ history (w_session (snd (run_actions demo_env demo_actions initial_world)))
     = demo_history
  /\ build_context (lit "And with a master's degree?") (Some demo_history)
     = Raise (KeyError "response")
  /\ fst (run_actions demo_env demo_actions initial_world) = Raise (KeyError "response")
  /\ List.filter (fun e => negb (quiet e))
                 (w_log (snd (run_actions demo_env demo_actions initial_world)))
     = [Generate (prompt_of [] (lit "What careers suit a biology graduate?"))
                 (Ok (lit " Consider biotechnology. "));
        App.SaveChat 1 (lit "What careers suit a biology graduate?")
                     (lit "Consider biotechnology.")].
Proof.
  split; [exact demo_history_records|].
  split; [by_compute|]. split; [by_compute|]. split; by_compute.
Qed.

End Handlers.

(** ** More on Python strings *)

Section Strings.

Lemma forallb_rev_true {A} (f : A -> bool) l :
  forallb f l = true -> forallb f (rev l) = true.
Proof.
  rewrite !forallb_forall. intros H x Hx. apply H. now apply in_rev.
Qed.

Lemma lstrip_split s :
  exists sp, s = sp ++ lstrip s /\ forallb isspace sp = true.
Proof.
  induction s as [|c s (sp & Hs & Hsp)]; cbn [lstrip]; [now exists []|].
  destruct (isspace c) eqn:Hc.
  - exists (c :: sp). cbn [forallb app]. rewrite Hc, Hsp. split; [now f_equal|reflexivity].
  - now exists [].
Qed.

Lemma lstrip_head s c r : lstrip s = c :: r -> isspace c = false.
Proof.
  induction s as [|d s IH]; cbn [lstrip]; [discriminate|].
  destruct (isspace d) eqn:Hd; [exact IH|]. intros [= <- _]. exact Hd.
Qed.

Lemma lstrip_fixed c r : isspace c = false -> lstrip (c :: r) = c :: r.
Proof. intros H. cbn [lstrip]. now rewrite H. Qed.

Lemma rstrip_split s :
  exists sp, s = rstrip s ++ sp /\ forallb isspace sp = true.
Proof.
  unfold rstrip. destruct (lstrip_split (rev s)) as (sp & Hs & Hsp).
  exists (rev sp). split.
  - rewrite <- rev_app_distr, <- Hs. now rewrite rev_involutive.
  - now apply forallb_rev_true.
Qed.

(** What [strip] returns is empty or begins and ends with a character
    that is not whitespace. *)
Lemma strip_shape s :
  strip s = []
  \/ exists c r d q, strip s = c :: r /\ isspace c = false
                     /\ rev (strip s) = d :: q /\ isspace d = false.
Proof.
  destruct (strip s) as [|c r] eqn:Hs; [now left|right].
  assert (Hrev : exists d q, rev (c :: r) = d :: q /\ isspace d = false).
  { unfold strip, rstrip in Hs. rewrite <- Hs, rev_involutive.
    destruct (lstrip (rev (lstrip s))) as [|d q] eqn:Hl.
    - discriminate.
    - exists d, q. split; [reflexivity|]. exact (lstrip_head _ _ _ Hl). }
  destruct Hrev as (d & q & Hrev & Hd).
  exists c, r, d, q. repeat split; try assumption.
  destruct (rstrip_split (lstrip s)) as (sp & Ht & _).
  unfold strip in Hs. rewrite Hs in Ht. cbn [app] in Ht.
  exact (lstrip_head _ _ _ Ht).
Qed.

(** X1.  [strip] cuts whitespace, and only whitespace, from both ends:
    the string is what [strip] returns between two runs of whitespace,
    and the result, unless empty, begins and ends with a character that
    is not whitespace; stripping again changes nothing.  This is what
    the reply stored by the send handler has gone through. *)
Theorem X1_strip_trims s :
  (exists l r, s = l ++ strip s ++ r
               /\ forallb isspace l = true /\ forallb isspace r = true)
  /\ (forall c body, strip s = c :: body ->
        isspace c = false /\ isspace (List.last (strip s) c) = false)
  /\ strip (strip s) = strip s.
Proof.
  split; [|split].
  - destruct (lstrip_split s) as (l & Hl & Hlsp).
    destruct (rstrip_split (lstrip s)) as (r & Hr & Hrsp).
    exists l, r. unfold strip. now rewrite <- Hr.
  - intros c body Hs.
    destruct (strip_shape s) as [H|(c' & r & d & q & Hc & Hsp & Hrev & Hd)]; [congruence|].
    rewrite Hc in Hs. injection Hs as <- <-. split; [exact Hsp|].
    apply (f_equal (@rev Z)) in Hrev. rewrite rev_involutive in Hrev.
    rewrite Hrev. cbn [rev]. now rewrite List.last_last.
  - destruct (strip_shape s) as [->|(c & r & d & q & Hc & Hsp & Hrev & Hd)]; [reflexivity|].
    unfold strip at 1. rewrite Hc, (lstrip_fixed _ _ Hsp), <- Hc.
    unfold rstrip. rewrite Hrev, (lstrip_fixed _ _ Hd), <- Hrev.
    apply rev_involutive.
Qed.

Lemma forallb_app_true {A} (f : A -> bool) l1 l2 :
  forallb f l1 = true -> forallb f l2 = true -> forallb f (l1 ++ l2) = true.
Proof. intros H1 H2. now rewrite forallb_app, H1, H2. Qed.

Lemma strip_nil_spaces s : strip s = [] -> forallb isspace s = true.
Proof.
  intros H. destruct (lstrip_split s) as (l & Hl & Hlsp).
  destruct (rstrip_split (lstrip s)) as (r & Hr & Hrsp).
  unfold strip in H. rewrite H in Hr. cbn [app] in Hr.
  rewrite Hl, Hr. now apply forallb_app_true.
Qed.

End Strings.

(** ** More on the encoding and the digest *)

Section Encoding.

Lemma encode_char_cases c bs :
  encode_char c = Some bs ->
  (0 <= c < 128 /\ bs = [c])
  \/ (128 <= c < 2048 /\ bs = [192 + c / 64; 128 + c mod 64])
  \/ (2048 <= c < 65536 /\ ~ (55296 <= c <= 57343)
      /\ bs = [224 + c / 4096; 128 + (c / 64) mod 64; 128 + c mod 64])
  \/ (65536 <= c < 1114112
      /\ bs = [240 + c / 262144; 128 + (c / 4096) mod 64;
               128 + (c / 64) mod 64; 128 + c mod 64]).
Proof.
  unfold encode_char.
  destruct (Z.ltb_spec c 0); [discriminate|].
  destruct (Z.ltb_spec c 128); [intros [= <-]; left; split; [lia|reflexivity]|].
  destruct (Z.ltb_spec c 2048); [intros [= <-]; right; left; split; [lia|reflexivity]|].
  assert (Hsur : (55296 <=? c) && (c <=? 57343) = true \/ ~ (55296 <= c <= 57343)).
  { destruct (Z.leb_spec 55296 c); destruct (Z.leb_spec c 57343); cbn [andb]; auto; right; lia. }
  destruct Hsur as [->|Hsur]; [discriminate|].
  destruct ((55296 <=? c) && (c <=? 57343)); [discriminate|].
  destruct (Z.ltb_spec c 65536).
  { intros [= <-]. right; right; left. split; [lia|]. split; [exact Hsur|reflexivity]. }
  destruct (Z.ltb_spec c 1114112); [|discriminate].
  intros [= <-]. right; right; right. split; [lia|reflexivity].
Qed.

Lemma encode_char_bytes c bs : encode_char c = Some bs -> Forall byte_ok bs.
Proof.
  intros H. unfold byte_ok.
  destruct (encode_char_cases _ _ H) as [(Hc & ->)|[(Hc & ->)|[(Hc & _ & ->)|(Hc & ->)]]];
    repeat constructor; try lia;
    try (apply Z.div_le_lower_bound; lia);
    try (pose proof (Z.mod_pos_bound c 64); pose proof (Z.mod_pos_bound (c / 64) 64);
         pose proof (Z.mod_pos_bound (c / 4096) 64); lia).
  all: Z.div_mod_to_equations; lia.
Qed.

Lemma encode_char_inj c c' bs bs' r r' :
  encode_char c = Some bs -> encode_char c' = Some bs' ->
  bs ++ r = bs' ++ r' -> c = c' /\ r = r'.
Proof.
  intros H H'.
  destruct (encode_char_cases _ _ H) as [(Hc & ->)|[(Hc & ->)|[(Hc & _ & ->)|(Hc & ->)]]];
    destruct (encode_char_cases _ _ H') as [(Hc' & ->)|[(Hc' & ->)|[(Hc' & _ & ->)|(Hc' & ->)]]];
    cbn [app]; intros Heq; injection Heq; intros;
    first [ split; [Z.div_mod_to_equations; lia | assumption]
          | exfalso; Z.div_mod_to_equations; lia ].
Qed.

Lemma encode_cons c r b :
  encode (c :: r) = Some b ->
  exists bs rest, encode_char c = Some bs /\ encode r = Some rest /\ b = bs ++ rest.
Proof.
  cbn [encode]. destruct (encode_char c) as [bs|]; [|discriminate].
  destruct (encode r) as [rest|]; [|discriminate].
  intros [= <-]. now exists bs, rest.
Qed.

Lemma encode_char_length c bs :
  encode_char c = Some bs -> (1 <= length bs <= 4)%nat.
Proof.
  intros H.
  destruct (encode_char_cases _ _ H) as [(_ & ->)|[(_ & ->)|[(_ & _ & ->)|(_ & ->)]]];
    cbn [length]; lia.
Qed.

Lemma encode_inj s : forall s' b, encode s = Some b -> encode s' = Some b -> s = s'.
Proof.
  induction s as [|c r IH]; intros [|c' r'] b H H'.
  - reflexivity.
  - cbn in H. injection H as <-.
    apply encode_cons in H' as (bs & rest & Hc & _ & Hb).
    apply encode_char_length in Hc. destruct bs; cbn in *; [lia|discriminate].
  - cbn in H'. injection H' as <-.
    apply encode_cons in H as (bs & rest & Hc & _ & Hb).
    apply encode_char_length in Hc. destruct bs; cbn in *; [lia|discriminate].
  - apply encode_cons in H as (bs & rest & Hc & Hr & ->).
    apply encode_cons in H' as (bs' & rest' & Hc' & Hr' & Hb).
    destruct (encode_char_inj _ _ _ _ _ _ Hc Hc' Hb) as [-> ->].
    f_equal. eapply IH; eauto.
Qed.

(** X2.  [str.encode()], where it succeeds, yields bytes, at least one
    and at most four for each character, and no other string has the
    same encoding: two different passwords reach the hash function as
    different byte strings. *)
Theorem X2_encode_utf8 s b :
  encode s = Some b ->
  Forall byte_ok b
  /\ (length s <= length b <= 4 * length s)%nat
  /\ (forall s', encode s' = Some b -> s' = s).
Proof.
  intros H. split; [|split].
  - revert b H. induction s as [|c r IH]; intros b H.
    + cbn in H. injection H as <-. constructor.
    + apply encode_cons in H as (bs & rest & Hc & Hr & ->).
      apply List.Forall_app. split; [exact (encode_char_bytes _ _ Hc) | exact (IH _ Hr)].
  - revert b H. induction s as [|c r IH]; intros b H.
    + cbn in H. injection H as <-. cbn. lia.
    + apply encode_cons in H as (bs & rest & Hc & Hr & ->).
      apply encode_char_length in Hc. specialize (IH _ Hr).
      rewrite length_app. cbn [length]. lia.
  - intros s' H'. symmetry. eapply encode_inj; eauto.
Qed.

Lemma X2_encode_utf8_witness :
  encode utf8_sample = Some utf8_sample_bytes
  /\ Forall byte_ok utf8_sample_bytes
  /\ (length utf8_sample <= length utf8_sample_bytes <= 4 * length utf8_sample)%nat
  /\ (forall s', encode s' = Some utf8_sample_bytes -> s' = utf8_sample).
Proof.
  split; [reflexivity|].
  apply (X2_encode_utf8 utf8_sample utf8_sample_bytes). reflexivity.
Defined.

Lemma hex_digit_char d : 0 <= d < 16 -> hexchar (Sha256.hex_digit d).
Proof.
  intros H. unfold hexchar, Sha256.hex_digit. destruct (Z.ltb_spec d 10); lia.
Qed.

Lemma hex_word_chars w :
  length (Sha256.hex_word w) = 8%nat /\ Forall hexchar (Sha256.hex_word w).
Proof.
  split; [reflexivity|]. unfold Sha256.hex_word.
  apply List.Forall_forall. intros c Hc. apply in_map_iff in Hc as (i & <- & _).
  apply hex_digit_char, Z.mod_pos_bound. reflexivity.
Qed.

(** X3.  What [hash_password] returns, whenever it returns, is a string
    of exactly 64 lowercase hexadecimal digits: this is all the
    [password_hash] column ever holds. *)
Theorem X3_hash_password_format pwd h :
  hash_password pwd = Ok h -> length h = 64%nat /\ Forall hexchar h.
Proof.
  unfold hash_password. destruct (encode pwd) as [bytes|]; [|discriminate].
  intros [= <-]. unfold Sha256.hexdigest, Sha256.regs_words. cbn [flat_map].
  rewrite app_nil_r. split.
  - rewrite !length_app. now rewrite !(proj1 (hex_word_chars _)).
  - repeat (apply List.Forall_app; split); apply hex_word_chars.
Qed.

Lemma X3_hash_password_format_witness :
  hash_password (lit "pw123")
  = Ok (lit "23d47445adfb8991789b459b6ba1b974d727d310aa9d80b7c2875b9430c0ba25")
  /\ length (lit "23d47445adfb8991789b459b6ba1b974d727d310aa9d80b7c2875b9430c0ba25") = 64%nat
  /\ Forall hexchar (lit "23d47445adfb8991789b459b6ba1b974d727d310aa9d80b7c2875b9430c0ba25").
Proof.
  assert (H : hash_password (lit "pw123")
              = Ok (lit "23d47445adfb8991789b459b6ba1b974d727d310aa9d80b7c2875b9430c0ba25"))
    by (vm_compute; reflexivity).
  split; [exact H | exact (X3_hash_password_format _ _ H)].
Defined.

End Encoding.

Section Hex.
Import Sha256.

Lemma hex_digit_inj d d' :
  0 <= d < 16 -> 0 <= d' < 16 -> hex_digit d = hex_digit d' -> d = d'.
Proof.
  unfold hex_digit. intros H H'.
  destruct (Z.ltb_spec d 10); destruct (Z.ltb_spec d' 10); lia.
Qed.

(** A number below 16^n is determined by its n hexadecimal digits. *)
Lemma nibbles_inj (n : nat) : forall w w',
  0 <= w < 16 ^ Z.of_nat n -> 0 <= w' < 16 ^ Z.of_nat n ->
  (forall i : nat, (i < n)%nat ->
     (w / 16 ^ Z.of_nat i) mod 16 = (w' / 16 ^ Z.of_nat i) mod 16) ->
  w = w'.
Proof.
  induction n as [|n IH]; intros w w' Hw Hw' Hd.
  - change (16 ^ Z.of_nat 0) with 1 in *. lia.
  - rewrite Nat2Z.inj_succ, Z.pow_succ_r in Hw, Hw' by lia.
    assert (Hq : w / 16 = w' / 16).
    { apply IH.
      - split; [apply Z.div_pos; lia | apply Z.div_lt_upper_bound; lia].
      - split; [apply Z.div_pos; lia | apply Z.div_lt_upper_bound; lia].
      - intros i Hi. specialize (Hd (S i) ltac:(lia)).
        rewrite Nat2Z.inj_succ, Z.pow_succ_r in Hd by lia.
        rewrite <- !Z.div_div in Hd by lia. exact Hd. }
    specialize (Hd 0%nat ltac:(lia)). change (16 ^ Z.of_nat 0) with 1 in Hd.
    rewrite !Z.div_1_r in Hd.
    rewrite (Z.div_mod w 16), (Z.div_mod w' 16) by lia. now rewrite Hq, Hd.
Qed.

Lemma hex_word_inj w w' :
  word32 w -> word32 w' -> hex_word w = hex_word w' -> w = w'.
Proof.
  unfold word32, hex_word. cbn [map]. intros Hw Hw' H.
  injection H as H7 H6 H5 H4 H3 H2 H1 H0.
  apply hex_digit_inj in H7, H6, H5, H4, H3, H2, H1, H0;
    try (apply Z.mod_pos_bound; reflexivity).
  apply (nibbles_inj 8); [exact Hw|exact Hw'|].
  intros i Hi.
  destruct i as [|[|[|[|[|[|[|[|i]]]]]]]];
    [exact H0|exact H1|exact H2|exact H3|exact H4|exact H5|exact H6|exact H7|lia].
Qed.

Lemma app_inj_length {A} (a a' b b' : list A) :
  length a = length a' -> a ++ b = a' ++ b' -> a = a' /\ b = b'.
Proof.
  revert a'. induction a as [|x a IH]; intros [|x' a'] Hl H; try discriminate.
  - now split.
  - cbn in *. injection H as <- H. injection Hl as Hl.
    destruct (IH _ Hl H) as [-> ->]. now split.
Qed.

(** X4.  The hexadecimal digest loses nothing of the hash value: two
    byte strings have the same [hexdigest] exactly when SHA-256 gives them
    the same eight words.  So [authenticate_user] accepts a password
    exactly when its SHA-256 value is the one of the password signed up
    with. *)
Theorem X4_hexdigest_faithful data data' :
  hexdigest data = hexdigest data' <-> sha256 data = sha256 data'.
Proof.
  split; [|unfold hexdigest; now intros ->].
  unfold hexdigest. pose proof (sha256_ok data) as Hok. pose proof (sha256_ok data') as Hok'.
  destruct (sha256 data) as [a b c d e f g h], (sha256 data') as [a' b' c' d' e' f' g' h'].
  unfold regs_ok in *. cbn [ra rb rc rd re rf rg rh] in *.
  destruct Hok as (Ha & Hb & Hc & Hd & He & Hf & Hg & Hh).
  destruct Hok' as (Ha' & Hb' & Hc' & Hd' & He' & Hf' & Hg' & Hh').
  unfold regs_words. cbn [flat_map ra rb rc rd re rf rg rh]. intros H.
  repeat match type of H with
         | hex_word ?x ++ _ = hex_word ?y ++ _ =>
             let E := fresh "E" in
             apply app_inj_length in H as [E H]; [|reflexivity];
             apply hex_word_inj in E; [|assumption..]; subst x
         end.
  reflexivity.
Qed.

End Hex.

(** ** More on the account store *)

Section Accounts.

Lemma find_username_none u rows :
  (forall r, In r rows -> u_username r <> u) -> find (has_username u) rows = None.
Proof.
  intros H. destruct (find (has_username u) rows) as [r|] eqn:Hf; [|reflexivity].
  apply find_some in Hf as [Hin Hr]. apply has_username_true in Hr.
  now apply H in Hin.
Qed.

Lemma existsb_username_false u rows :
  (forall r, In r rows -> u_username r <> u) -> existsb (has_username u) rows = false.
Proof.
  intros H. destruct (existsb (has_username u) rows) eqn:Hex; [|reflexivity].
  apply existsb_exists in Hex as (r & Hin & Hr). apply has_username_true in Hr.
  now apply H in Hin.
Qed.

(** X5.  For a username that is not in the table, [authenticate_user]
    never hashes the password (one that cannot be encoded raises nothing
    here).  When the username can be bound to the SELECT it returns
    nothing, and the login handler writes "Invalid login" and changes
    nothing else; when the username has no UTF-8 encoding the SELECT
    raises [UnicodeEncodeError], which ends the run with nothing written
    and nothing changed. *)
Theorem X5_unknown_username E w u p :
  (forall r, In r (users (w_db w)) -> u_username r <> u) ->
  user (w_session w) = None ->
  authenticate_user (w_db w) u p
  = (if bindable u then Ok None else Raise UnicodeEncodeError)
  /\ interact E (Login u p) w
     = (if bindable u
        then (Ok tt, World (w_db w) (w_session w) (w_log w ++ [Error (lit "Invalid login")]))
        else (Raise UnicodeEncodeError, w)).
Proof.
  intros Hfree Hout.
  assert (Ha : authenticate_user (w_db w) u p
               = (if bindable u then Ok None else Raise UnicodeEncodeError)).
  { unfold authenticate_user. now rewrite (find_username_none _ _ Hfree). }
  split; [exact Ha|].
  destruct w as [db [usr open hist] log]. cbn [w_session user] in Hout. subst usr.
  unfold interact, script, bind, get_session, login_handler, bind, get_db, lift.
  cbn [w_db w_session w_log user] in *. rewrite Ha.
  now destruct (bindable u).
Qed.

Lemma X5_unknown_username_witness :
  (authenticate_user alice_db (lit "bob") [55296] = Ok None
   /\ interact demo_env (Login (lit "bob") [55296]) (World alice_db (Session None false []) [])
      = (Ok tt, World alice_db (Session None false []) [Error (lit "Invalid login")]))
  /\ (authenticate_user alice_db [55296] (lit "pw123") = Raise UnicodeEncodeError
      /\ interact demo_env (Login [55296] (lit "pw123"))
                  (World alice_db (Session None false []) [])
         = (Raise UnicodeEncodeError, World alice_db (Session None false []) [])).
Proof.
  split.
  - apply (X5_unknown_username demo_env (World alice_db (Session None false []) [])
             (lit "bob") [55296]).
    + intros r [<-|[]]. vm_compute. discriminate.
    + reflexivity.
  - apply (X5_unknown_username demo_env (World alice_db (Session None false []) [])
             [55296] (lit "pw123")).
    + intros r [<-|[]]. vm_compute. discriminate.
    + reflexivity.
Defined.

(** X6.  A password that cannot be hashed makes [create_user] return
    [False] and leave the database alone, and the sign-up handler then
    reports "Username exists", also when no account has that username:
    the bare [except] does not tell the failures apart. *)
Theorem X6_signup_failure_message E w u p e :
  hash_password p = Raise e ->
  user (w_session w) = None ->
  create_user (w_db w) u p = (w_db w, false)
  /\ interact E (SignUp u p) w
     = (Ok tt, World (w_db w) (w_session w) (w_log w ++ [Error (lit "Username exists")])).
Proof.
  intros Hh Hout.
  assert (Hc : create_user (w_db w) u p = (w_db w, false)).
  { unfold create_user. now rewrite Hh. }
  split; [exact Hc|].
  destruct w as [db [usr open hist] log]. cbn [w_session user] in Hout. subst usr.
  unfold interact, script, bind, get_session, signup_handler, bind, get_db.
  cbn [w_db w_session w_log user] in *. rewrite Hc. reflexivity.
Qed.

Lemma X6_signup_failure_message_witness :
  hash_password [55296] = Raise UnicodeEncodeError
  /\ create_user create_tables (lit "carol") [55296] = (create_tables, false)
  /\ interact demo_env (SignUp (lit "carol") [55296]) initial_world
     = (Ok tt, World create_tables (Session None false []) [Error (lit "Username exists")]).
Proof.
  split; [reflexivity|].
  apply (X6_signup_failure_message demo_env initial_world (lit "carol") [55296]
           UnicodeEncodeError); reflexivity.
Defined.

Lemma find_app_old u (rows : list user_row) r :
  u_username r <> u -> find (has_username u) (rows ++ [r]) = find (has_username u) rows.
Proof.
  intros Hne. induction rows as [|x rows IH]; cbn [app find].
  - unfold has_username. now rewrite bool_decide_eq_false_2.
  - now rewrite IH.
Qed.

(** X7.  A successful sign-up disturbs no existing account: the rows of
    the table stay where they were, [authenticate_user] answers as before
    for every other username, and every chat history reads as before.
    Nor does [save_chat] change what [authenticate_user] answers. *)
Theorem X7_signup_frame db u p db' :
  create_user db u p = (db', true) ->
  (exists row, users db' = users db ++ [row] /\ u_username row = u
               /\ forall r, In r (users db) -> u_id r < u_id row)
  /\ (forall u2 p2, u2 <> u -> authenticate_user db' u2 p2 = authenticate_user db u2 p2)
  /\ (forall uid, get_chat_history db' uid = get_chat_history db uid)
  /\ (forall stamps uid msg resp u2 p2,
        authenticate_user (save_chat db stamps uid msg resp) u2 p2
        = authenticate_user db u2 p2).
Proof.
  intros Hc. apply create_user_true in Hc as (bytes & Henc & Hfresh & ->).
  split; [|split; [|split]].
  - eexists. cbn [users]. split; [reflexivity|]. split; [reflexivity|].
    intros r Hr. cbn [u_id]. apply next_rowid_above. now apply in_map.
  - intros u2 p2 Hne. unfold authenticate_user. cbn [users].
    rewrite find_app_old by (cbn [u_username]; congruence). reflexivity.
  - reflexivity.
  - reflexivity.
Qed.

Lemma X7_signup_frame_witness :
  create_user alice_db (lit "bob") (lit "pw123") = (alice_bob_db, true)
  /\ (forall u2 p2, u2 <> lit "bob" ->
        authenticate_user alice_bob_db u2 p2 = authenticate_user alice_db u2 p2).
Proof.
  assert (H : create_user alice_db (lit "bob") (lit "pw123") = (alice_bob_db, true))
    by (vm_compute; reflexivity).
  split; [exact H|].
  exact (proj1 (proj2 (X7_signup_frame _ _ _ _ H))).
Defined.

End Accounts.

(** ** More on the conversation store *)

Section Ordering.

Lemma insert_by_id_perm r l : Permutation (insert_by_id r l) (r :: l).
Proof.
  induction l as [|x l IH]; cbn [insert_by_id]; [reflexivity|].
  destruct (c_id r <=? c_id x); [reflexivity|].
  rewrite IH. apply perm_swap.
Qed.

Lemma order_by_id_perm l : Permutation (order_by_id l) l.
Proof.
  unfold order_by_id. induction l as [|x l IH]; cbn [fold_right]; [reflexivity|].
  rewrite insert_by_id_perm. now constructor.
Qed.

Lemma insert_by_id_sorted r l :
  StronglySorted id_le l -> StronglySorted id_le (insert_by_id r l).
Proof.
  induction l as [|x l IH]; cbn [insert_by_id]; intros Hs.
  - repeat constructor.
  - apply StronglySorted_inv in Hs as [Hs Hx].
    destruct (Z.leb_spec (c_id r) (c_id x)) as [Hle|Hgt].
    + constructor; [now constructor|].
      constructor; [exact Hle|].
      eapply List.Forall_impl; [|exact Hx]. unfold id_le. intros; lia.
    + constructor; [now apply IH|].
      apply List.Forall_forall. intros y Hy. apply in_insert_by_id in Hy as [->|Hy].
      * unfold id_le; lia.
      * rewrite List.Forall_forall in Hx. now apply Hx.
Qed.

Lemma order_by_id_sorted l : StronglySorted id_le (order_by_id l).
Proof.
  unfold order_by_id. induction l as [|x l IH]; cbn [fold_right]; [constructor|].
  now apply insert_by_id_sorted.
Qed.

Lemma order_by_id_fixed l : StronglySorted id_le l -> order_by_id l = l.
Proof.
  unfold order_by_id. induction l as [|x l IH]; cbn [fold_right]; [reflexivity|].
  intros Hs. apply StronglySorted_inv in Hs as [Hs Hx]. rewrite (IH Hs).
  destruct l as [|y l]; [reflexivity|]. cbn [insert_by_id].
  inversion Hx as [|? ? Hxy _]; subst. unfold id_le in Hxy.
  apply Z.leb_le in Hxy. now rewrite Hxy.
Qed.

(** X8.  Whatever order the rows are stored in, [get_chat_history]
    returns the records of exactly the rows of that account, each once,
    by increasing rowid. *)
Theorem X8_history_by_rowid db uid :
  exists rows,
    get_chat_history db uid = map row_dict rows
    /\ Permutation rows (List.filter (fun r => c_user_id r =? uid) (chat_history db))
    /\ StronglySorted id_le rows.
Proof.
  exists (order_by_id (List.filter (fun r => c_user_id r =? uid) (chat_history db))).
  split; [reflexivity|]. split; [apply order_by_id_perm | apply order_by_id_sorted].
Qed.

End Ordering.

Section DatabaseShape.

Lemma ids_upto_S n : ids_upto (S n) = ids_upto n ++ [Z.of_nat (S n)].
Proof. unfold ids_upto. rewrite seq_S, map_app. reflexivity. Qed.

Lemma ids_upto_le n x : In x (ids_upto n) -> 1 <= x <= Z.of_nat n.
Proof.
  unfold ids_upto. intros H. apply in_map_iff in H as (k & <- & Hk).
  apply in_seq in Hk. lia.
Qed.

Lemma next_rowid_upto n : next_rowid (Z.of_nat n) (ids_upto n) = Z.of_nat (S n).
Proof.
  unfold next_rowid. rewrite max_fold_top; [lia|].
  intros x Hx. apply ids_upto_le in Hx. lia.
Qed.

Lemma db_ok_insert_chat db ts uid m flag :
  db_ok db -> db_ok (insert_chat db ts uid m flag).
Proof.
  intros (Hu & Hus & Hc & Hcs & Hnd). unfold db_ok, insert_chat.
  cbn [users users_seq chat_history chat_seq].
  rewrite map_app, length_app, Hc, Hcs, next_rowid_upto. cbn [map c_id length].
  rewrite Nat.add_1_r, ids_upto_S. now repeat split.
Qed.

Lemma db_ok_create_user db u p : db_ok db -> db_ok (fst (create_user db u p)).
Proof.
  intros Hok. unfold create_user, insert_user.
  destruct (hash_password p) as [h|]; [|exact Hok].
  destruct (bindable u); [|exact Hok].
  destruct (existsb (has_username u) (users db)) eqn:Hex; [exact Hok|].
  destruct Hok as (Hu & Hus & Hc & Hcs & Hnd). unfold db_ok.
  cbn [fst users users_seq chat_history chat_seq].
  rewrite !map_app, length_app, Hu, Hus, next_rowid_upto. cbn [map u_id u_username length].
  rewrite Nat.add_1_r, ids_upto_S. repeat split; try assumption.
  apply List.NoDup_app; [exact Hnd|repeat constructor; auto|].
  intros name Hin [Heq|[]]. subst name. apply in_map_iff in Hin as (r & Hr & Hin).
  assert (existsb (has_username u) (users db) = true); [|congruence].
  apply existsb_exists. exists r. split; [exact Hin|now apply has_username_true].
Qed.

Lemma db_ok_apply_op db o : db_ok db -> db_ok (apply_op db o).
Proof.
  destruct o as [u p|c]; cbn [apply_op]; intros H.
  - now apply db_ok_create_user.
  - unfold save_chat. now apply db_ok_insert_chat, db_ok_insert_chat.
Qed.

Lemma db_ok_run_ops ops : forall db, db_ok db -> db_ok (run_ops db ops).
Proof.
  unfold run_ops. induction ops as [|o ops IH]; intros db H; cbn [fold_left]; [exact H|].
  apply IH, db_ok_apply_op, H.
Qed.

Lemma db_ok_fresh : db_ok create_tables.
Proof. unfold db_ok. cbn. repeat split; constructor. Qed.

Lemma seq_sorted n : forall a, StronglySorted Z.le (map Z.of_nat (seq a n)).
Proof.
  induction n as [|n IH]; intros a; cbn [seq map]; constructor; [apply IH|].
  apply List.Forall_forall. intros x Hx. apply in_map_iff in Hx as (k & <- & Hk).
  apply in_seq in Hk. lia.
Qed.

Lemma sorted_by_ids rows :
  StronglySorted Z.le (map c_id rows) -> StronglySorted id_le rows.
Proof.
  induction rows as [|r rows IH]; cbn [map]; intros H; [constructor|].
  apply StronglySorted_inv in H as [Hs Hr]. constructor; [now apply IH|].
  rewrite List.Forall_forall in *. intros x Hx. apply Hr. now apply in_map.
Qed.

Lemma sorted_filter (f : chat_row -> bool) rows :
  StronglySorted id_le rows -> StronglySorted id_le (List.filter f rows).
Proof.
  induction 1 as [|r rows Hs IH Hr]; cbn [List.filter]; [constructor|].
  destruct (f r); [|exact IH]. constructor; [exact IH|].
  rewrite List.Forall_forall in *. intros x Hx. apply Hr.
  now apply List.filter_In in Hx.
Qed.

Lemma paired_run_ops ops : forall db,
  paired (chat_history db) = true -> paired (chat_history (run_ops db ops)) = true.
Proof.
  unfold run_ops. induction ops as [|o ops IH]; intros d Hd; cbn [fold_left]; [exact Hd|].
  apply IH. destruct o as [u p|c]; cbn [apply_op].
  - now rewrite (proj1 (create_user_chat d u p)).
  - now apply paired_save.
Qed.

(** X9.  Every database that [create_user] and [save_chat] calls make
    out of a fresh file has, in both tables, the rowids 1, 2, ..., n in
    storage order with the sequence entry at n, no username twice, and
    the chat rows in pairs; [get_chat_history] then returns the rows of
    the account in the order they are stored. *)
Theorem X9_database_shape ops uid :
  let db := run_ops create_tables ops in
  db_ok db
  /\ paired (chat_history db) = true
  /\ get_chat_history db uid
     = map row_dict (List.filter (fun r => c_user_id r =? uid) (chat_history db)).
Proof.
  intros db.
  assert (Hok : db_ok db) by apply db_ok_run_ops, db_ok_fresh.
  split; [exact Hok|]. split.
  - now apply paired_run_ops.
  - unfold get_chat_history. f_equal. apply order_by_id_fixed, sorted_filter, sorted_by_ids.
    destruct Hok as (_ & _ & -> & _). apply seq_sorted.
Qed.

End DatabaseShape.

(** ** More on transactions *)

Section Serial.
Import Txn.

(** One step commits nothing or one whole call, and keeps the writer
    under way on the road to a whole call. *)
Lemma serial_step l s :
  serial s -> exists ops, committed (step l s) = run_ops (committed s) ops /\ serial (step l s).
Proof.
  intros Hw. destruct s as [db w]. unfold serial in *. cbn [committed writer] in *.
  destruct l as [stamps uid msg resp|name pwd| | |]; unfold step; cbn [committed writer].
  - destruct w as [[v rest]|]; [exists []; now split|].
    exists []. split; [reflexivity|]. cbn [committed writer exec_all save_chat_stmts exec].
    intros v' [= <-]. now exists (SaveChat (Call stamps uid msg resp)).
  - destruct w as [[v rest]|]; [exists []; now split|].
    destruct (hash_password pwd) as [h|e] eqn:Hh; [|exists []; now split].
    exists []. split; [reflexivity|]. cbn [committed writer exec_all exec].
    intros v'. destruct (insert_user db name h) eqn:E; [|discriminate].
    intros [= <-]. exists (CreateUser name pwd). cbn [apply_op].
    unfold create_user. now rewrite Hh, E.
  - destruct w as [[v [|st rest]]|]; [exists []; now split| |exists []; now split].
    destruct (exec st v) as [v1|] eqn:E; [|exists []; now split].
    exists []. split; [reflexivity|]. cbn [committed writer]. intros v' Hv'. apply Hw.
    cbn [exec_all]. now rewrite E.
  - destruct w as [[v [|st rest]]|]; [|exists []; now split..].
    destruct (Hw v eq_refl) as (o & ->). exists [o]. now split.
  - destruct w as [[v rest]|]; exists []; now split.
Qed.

(** X10.  The committed database is always the work of whole calls:
    whatever the interleaving of begun, half-run, failed, committed and
    dropped calls of [create_user] and [save_chat] on a fresh database,
    the database a reader finds is the one some sequence of whole calls
    of the two functions returns, run one after the other, so every
    history read is the records of whole [save_chat] calls in order. *)
Theorem X10_committed_is_serial ls :
  exists ops,
    committed (run ls initial) = run_ops create_tables ops
    /\ forall uid,
         read_history (run ls initial) uid = flat_map call_records (calls_for uid ops).
Proof.
  assert (H : forall ls s, serial s ->
                exists ops, committed (run ls s) = run_ops (committed s) ops).
  { clear ls. unfold run. induction ls as [|l ls IH]; intros s Hs; cbn [fold_left].
    - now exists [].
    - destruct (serial_step l s Hs) as (ops1 & H1 & Hs1).
      destruct (IH _ Hs1) as (ops2 & H2).
      exists (ops1 ++ ops2). unfold run_ops in *. now rewrite fold_left_app, <- H1. }
  destruct (H ls initial I) as (ops & Hops). cbn [initial committed] in Hops.
  exists ops. split; [exact Hops|].
  intros uid. unfold read_history. rewrite Hops.
  now rewrite get_chat_history_ops.
Qed.

End Serial.

(** ** More on the handlers *)

Section Interactions.

Lemma display_history_rows rows : forall db s log,
  display_history (map row_dict rows) (World db s log)
  = (Ok tt, World db s (log ++ map row_bubble rows)).
Proof.
  induction rows as [|r rows IH]; intros db s log; cbn [map display_history].
  - unfold ret. now rewrite app_nil_r.
  - unfold bind at 1, lift at 1.
    change (getitem (row_dict r) "is_user") with (@Ok pyval (VInt (c_is_user r))).
    unfold bind at 1, lift at 1. rewrite getitem_row_message.
    unfold bind at 1, emit at 1. cbn [w_db w_session w_log].
    rewrite IH. now rewrite <- app_assoc.
Qed.

Lemma display_history_app_rows rows hs : forall db s log,
  display_history (map row_dict rows ++ hs) (World db s log)
  = display_history hs (World db s (log ++ map row_bubble rows)).
Proof.
  induction rows as [|r rows IH]; intros db s log; cbn [map app display_history].
  - now rewrite app_nil_r.
  - unfold bind at 1, lift at 1.
    change (getitem (row_dict r) "is_user") with (@Ok pyval (VInt (c_is_user r))).
    unfold bind at 1, lift at 1. rewrite getitem_row_message.
    unfold bind at 1, emit at 1. cbn [w_db w_session w_log].
    rewrite IH. now rewrite <- app_assoc.
Qed.

(** X11.  The display loop writes one bubble for each stored record, in
    order, "user-msg" where [is_user] is 1 and "bot-msg" otherwise, and
    raises nothing; at the first record appended by the send handler it
    stops with [KeyError] for the key "is_user", after the bubbles of
    the records before it. *)
Theorem X11_display_history rows m p rest db s log :
  display_history (map row_dict rows) (World db s log)
  = (Ok tt, World db s (log ++ map row_bubble rows))
  /\ display_history (map row_dict rows ++ exchange_dict m p :: rest) (World db s log)
     = (Raise (KeyError "is_user"), World db s (log ++ map row_bubble rows)).
Proof.
  split; [apply display_history_rows|].
  rewrite display_history_app_rows. cbn [display_history].
  unfold bind at 1, lift at 1. now rewrite getitem_exchange_is_user.
Qed.

Lemma display_history_ok_keys hs : forall w w',
  display_history hs w = (Ok tt, w') ->
  Forall (fun h => is_Some (h !! "is_user")) hs.
Proof.
  induction hs as [|h hs IH]; intros w w'; [constructor|].
  cbn [display_history]. unfold bind at 1, lift at 1, getitem at 1.
  destruct (h !! "is_user") as [flag|] eqn:Hf; [|discriminate].
  unfold bind at 1, lift at 1. destruct (getitem h "message") as [m|]; [|discriminate].
  unfold bind at 1, emit at 1. intros H. constructor; [now exists flag|]. eapply IH, H.
Qed.

Lemma transition_log E db s l1 l2 a db' s' :
  transition E (World db s l1) a db' s' -> transition E (World db s l2) a db' s'.
Proof.
  intros H. inversion H; subst; cbn [w_db w_session] in *.
  - apply (tr_same E (World db s l2)).
  - now apply (tr_login E (World db s l2)).
  - now apply (tr_signup E (World db s l2)).
  - now apply (tr_logout E (World db s l2) usr).
  - now apply (tr_toggle E (World db s l2)).
  - eapply (tr_send E (World db s l2)); eassumption.
Qed.

(** The send handler with a user logged in: the state it leaves. *)
Lemma send_handler_state E msg db usr open hist log :
  exists r w1,
    send_handler E msg (World db (Session (Some usr) open hist) log) = (r, w1)
    /\ ((w_db w1 = db /\ w_session w1 = Session (Some usr) open hist)
        \/ (exists prompt reply,
              truthy (strip msg) = true
              /\ build_context msg (Some hist) = Ok prompt
              /\ generate_content E prompt = Ok reply
              /\ w_db w1 = save_chat db (stamps E) (id usr) msg (strip reply)
              /\ w_session w1
                 = Session (Some usr) open (hist ++ [exchange_dict msg (strip reply)]))).
Proof.
  unfold send_handler. destruct (truthy (strip msg)) eqn:Ht.
  2:{ eexists _, _. split; [reflexivity|]. left. now split. }
  unfold bind at 1, get_session at 1. cbn [w_session history].
  unfold bind at 1. unfold get_response, bind at 1, lift at 1.
  destruct (build_context msg (Some hist)) as [prompt|e] eqn:Hb.
  2:{ eexists _, _. split; [reflexivity|]. left. now split. }
  unfold bind at 1, emit at 1. cbn [w_db w_session w_log].
  unfold bind at 1, lift at 1.
  destruct (generate_content E prompt) as [reply|e] eqn:Hg.
  2:{ eexists _, _. split; [reflexivity|]. left. now split. }
  unfold ret at 1.
  unfold bind, get_session, put_session, lift, session_user_id, emit, get_db, put_db, rerun, raise.
  cbn [w_db w_session w_log user chat_open history].
  eexists _, _. split; [reflexivity|]. right. exists prompt, reply.
  cbn [w_db w_session]. now repeat split.
Qed.

(** One script run: the state it leaves. *)
Ltac same_state :=
  cbn [w_db w_session];
  match goal with |- transition ?E ?w ?a _ _ => exact (tr_same E w a) end.

Lemma script_transition E a w :
  exists r w1, script E a w = (r, w1) /\ transition E w a (w_db w1) (w_session w1).
Proof.
  destruct w as [db [[usr|] open hist] log].
  - (* logged in *)
    assert (Hpopup : forall a' open' log',
               (forall msg, a' <> Send msg) ->
               exists r evs, chat_popup E a' (World db (Session (Some usr) open' hist) log')
                             = (r, World db (Session (Some usr) open' hist) (log' ++ evs))).
    { intros a' open' log' Hns. unfold chat_popup, bind, emit, get_session.
      cbn [w_db w_session w_log history].
      match goal with |- context [display_history hist (World ?d ?s ?l)] =>
        destruct (display_history_effect hist d s l) as (r & evs & -> & _)
      end.
      destruct r as [[]|e]; [|eexists _, (_ :: _ :: evs); now rewrite <- !app_assoc].
      destruct a'; try (eexists _, (_ :: _ :: evs ++ [_]); unfold ret;
                        cbn [w_db w_session w_log]; now rewrite <- !app_assoc).
      now contradiction (Hns msg). }
    unfold script. unfold bind at 1, get_session at 1. cbn [w_session user].
    unfold bind at 1. unfold bind at 1, emit at 1. cbn [w_db w_session w_log].
    destruct a as [|u p|u p| | |msg].
    + (* NoAction *)
      unfold ret at 1. unfold bind at 1, get_session at 1. cbn [w_session user].
      unfold bind at 1, ret at 1. unfold bind at 1, get_session at 1. cbn [w_session chat_open].
      destruct open.
      * destruct (Hpopup NoAction true (log ++ [SidebarWrite ([128075] ++ lit " Welcome, " ++ username usr)]))
          as (r & evs & ->); [discriminate|].
        eexists _, _. split; [reflexivity|]. same_state.
      * eexists _, _. split; [reflexivity|]. same_state.
    + (* Login *)
      unfold ret at 1. unfold bind at 1, get_session at 1. cbn [w_session user].
      unfold bind at 1, ret at 1. unfold bind at 1, get_session at 1. cbn [w_session chat_open].
      destruct open.
      * destruct (Hpopup (Login u p) true (log ++ [SidebarWrite ([128075] ++ lit " Welcome, " ++ username usr)]))
          as (r & evs & ->); [discriminate|].
        eexists _, _. split; [reflexivity|]. same_state.
      * eexists _, _. split; [reflexivity|]. same_state.
    + (* SignUp *)
      unfold ret at 1. unfold bind at 1, get_session at 1. cbn [w_session user].
      unfold bind at 1, ret at 1. unfold bind at 1, get_session at 1. cbn [w_session chat_open].
      destruct open.
      * destruct (Hpopup (SignUp u p) true (log ++ [SidebarWrite ([128075] ++ lit " Welcome, " ++ username usr)]))
          as (r & evs & ->); [discriminate|].
        eexists _, _. split; [reflexivity|]. same_state.
      * eexists _, _. split; [reflexivity|]. same_state.
    + (* Logout *)
      unfold logout_handler, bind, get_session, put_session, emit, rerun, raise.
      cbn [w_db w_session w_log chat_open].
      eexists _, _. split; [reflexivity|]. cbn [w_db w_session].
      exact (tr_logout E (World db (Session (Some usr) open hist) log) usr eq_refl).
    + (* ChatToggle *)
      unfold ret at 1. unfold bind at 1, get_session at 1. cbn [w_session user].
      unfold bind at 1, put_session at 1. cbn [w_db w_session w_log user chat_open history].
      unfold bind at 1, get_session at 1. cbn [w_session chat_open].
      pose proof (tr_toggle E (World db (Session (Some usr) open hist) log) usr eq_refl) as Ht.
      cbn [w_db w_session chat_open history] in Ht.
      destruct open; cbn [negb] in *.
      * eexists _, _. split; [reflexivity|]. exact Ht.
      * destruct (Hpopup ChatToggle true (log ++ [SidebarWrite ([128075] ++ lit " Welcome, " ++ username usr)]))
          as (r & evs & ->); [discriminate|].
        eexists _, _. split; [reflexivity|]. exact Ht.
    + (* Send *)
      unfold ret at 1. unfold bind at 1, get_session at 1. cbn [w_session user].
      unfold bind at 1, ret at 1. unfold bind at 1, get_session at 1. cbn [w_session chat_open].
      destruct open; [|eexists _, _; split; [reflexivity|same_state]].
      unfold chat_popup, bind, emit, get_session. cbn [w_db w_session w_log history].
      match goal with |- context [display_history hist ?W] =>
        destruct (display_history hist W) as [[[]|e] w1] eqn:Hd
      end.
      2:{ match type of Hd with display_history hist (World ?d ?s ?l) = _ =>
            destruct (display_history_effect hist d s l) as (r' & evs & Hd' & _)
          end.
          rewrite Hd in Hd'. injection Hd' as _ ->.
          eexists _, _. split; [reflexivity|]. same_state. }
      pose proof (display_history_ok_keys _ _ _ Hd) as Hkeys.
      match type of Hd with display_history hist (World ?d ?s ?l) = _ =>
        destruct (display_history_effect hist d s l) as (r' & evs & Hd' & _)
      end.
      rewrite Hd in Hd'. injection Hd' as _ ->.
      match goal with |- context [send_handler E msg (World db ?s ?l)] =>
        destruct (send_handler_state E msg db usr true hist l) as (r & w2 & -> & Hcase)
      end.
      assert (Htr : transition E (World db (Session (Some usr) true hist) log) (Send msg)
                               (w_db w2) (w_session w2)).
      { destruct Hcase as [[-> ->]|(prompt & reply & Ht & Hb & Hg & -> & ->)].
        - same_state.
        - now apply (tr_send E (World db (Session (Some usr) true hist) log) msg usr prompt reply). }
      destruct r as [[]|e]; eexists _, _; (split; [reflexivity|exact Htr]).
  - (* logged out *)
    unfold script. unfold bind at 1, get_session at 1. cbn [w_session user].
    destruct a as [|u p|u p| | |msg];
      try (eexists _, _; split; [reflexivity|same_state]).
    + (* Login *)
      unfold bind at 1. unfold login_handler. unfold bind at 1, get_db at 1. cbn [w_db].
      unfold bind at 1, lift at 1.
      destruct (authenticate_user db u p) as [[usr|]|e] eqn:Ha.
      * unfold bind, get_session, put_session, emit, rerun, raise.
        cbn [w_db w_session w_log user chat_open history].
        eexists _, _. split; [reflexivity|]. cbn [w_db w_session].
        exact (tr_login E (World db (Session None open hist) log) u p usr eq_refl Ha).
      * eexists _, _. split; [reflexivity|]. same_state.
      * eexists _, _. split; [reflexivity|]. same_state.
    + (* SignUp *)
      unfold bind at 1. unfold signup_handler. unfold bind at 1, get_db at 1. cbn [w_db].
      pose proof (tr_signup E (World db (Session None open hist) log) u p eq_refl) as Ht.
      cbn [w_db w_session] in Ht.
      destruct (create_user db u p) as [db' created].
      destruct created; eexists _, _; (split; [reflexivity|exact Ht]).
Qed.

Lemma interact_transition E a w :
  transition E w a (w_db (snd (interact E a w))) (w_session (snd (interact E a w))).
Proof.
  unfold interact. destruct (script_transition E a w) as (r & w1 & -> & Ht).
  destruct r as [[]|e]; [exact Ht|].
  destruct e; try exact Ht.
  destruct w1 as [db1 s1 log1].
  destruct (script_no_action E db1 s1 log1) as (r2 & evs2 & -> & _). exact Ht.
Qed.

Lemma create_user_users db u p :
  users (fst (create_user db u p)) = users db
  \/ exists row, users (fst (create_user db u p)) = users db ++ [row].
Proof.
  unfold create_user, insert_user.
  destruct (hash_password p); [|now left].
  destruct (bindable u); [|now left].
  destruct (existsb _ _); [now left|right]. eexists. reflexivity.
Qed.

(** X12.  Every interaction changes the database and the session in one
    of six ways: not at all, by a login that [authenticate_user]
    accepted, by a sign-up, by a logout, by a toggle of the chat, or by a
    message that was displayed over, answered by the model and saved.
    So only a sign-up touches the [users] table and only a message the
    [chat_history] table. *)
Theorem X12_interaction_effects E a w :
  let w' := snd (interact E a w) in
  transition E w a (w_db w') (w_session w')
  /\ ((forall u p, a <> SignUp u p) -> users (w_db w') = users (w_db w))
  /\ ((forall msg, a <> Send msg) -> chat_history (w_db w') = chat_history (w_db w)).
Proof.
  intros w'. pose proof (interact_transition E a w) as Ht. fold w' in Ht.
  split; [exact Ht|].
  remember (w_db w') as db' eqn:Hdb. remember (w_session w') as s' eqn:Hs.
  clear Hdb Hs. split; intros Hns;
    destruct Ht as [a|u p usr Hu Ha|u p Hu|usr Hu|usr Hu|msg usr prompt reply Hu Ho Hk Ht Hb Hg];
    try reflexivity.
  - now contradiction (Hns u p).
  - apply create_user_chat.
  - now contradiction (Hns msg).
Qed.

Lemma authenticate_some db u p usr :
  authenticate_user db u p = Ok (Some usr) ->
  exists row, In row (users db) /\ usr = UserInfo (u_id row) (u_username row)
              /\ u_username row = u.
Proof.
  unfold authenticate_user. destruct (bindable u); [|discriminate].
  destruct (find (has_username u) (users db)) as [row|] eqn:Hf; [|discriminate].
  apply find_some in Hf as [Hin Hname]. apply has_username_true in Hname.
  destruct (hash_password p); [|discriminate].
  destruct (bool_decide _); [|discriminate].
  intros [= <-]. now exists row.
Qed.

Lemma world_ok_interact E a w : world_ok w -> world_ok (snd (interact E a w)).
Proof.
  intros (Hdb & Hp & Hfk & Hu & Hh).
  pose proof (interact_transition E a w) as Ht.
  destruct (snd (interact E a w)) as [db' s' log']. cbn [w_db w_session] in Ht.
  unfold world_ok. cbn [w_db w_session].
  destruct Ht as [a|u p usr Hout Ha|u p Hout|usr Hin|usr Hin
                  |msg usr prompt reply Hin Ho Hk Ht Hb Hg].
  - exact (conj Hdb (conj Hp (conj Hfk (conj Hu Hh)))).
  - split; [exact Hdb|]. split; [exact Hp|]. split; [exact Hfk|].
    split; cbn [user history].
    + apply authenticate_some in Ha as (row & Hrow & -> & _).
      exists (u_password_hash row). cbn [id username]. now destruct row.
    + unfold get_chat_history. apply List.Forall_forall. intros d Hd.
      apply in_map_iff in Hd as (r & <- & _). left. now exists r.
  - destruct (create_user_chat (w_db w) u p) as [Hc Hs].
    split; [|split; [|split; [|split; [|exact Hh]]]].
    4:{ rewrite Hout in *. exact Hu. }
    + now apply db_ok_create_user.
    + now rewrite Hc.
    + rewrite Hc. intros r Hr. destruct (Hfk r Hr) as (x & Hx & Hid).
      exists x. split; [|exact Hid].
      destruct (create_user_users (w_db w) u p) as [->|(row & ->)]; [exact Hx|].
      apply in_or_app. now left.
  - split; [exact Hdb|]. split; [exact Hp|]. split; [exact Hfk|].
    split; cbn [user history]; [reflexivity|constructor].
  - rewrite Hin in Hu.
    split; [exact Hdb|]. split; [exact Hp|]. split; [exact Hfk|]. now split.
  - rewrite Hin in Hu. destruct Hu as (h & Hrow).
    destruct (chat_history_save (w_db w) (stamps E) (id usr) msg (strip reply))
      as (x & y & Hrows & -> & ->).
    split; [|split; [|split; [|split]]]; cbn [user history].
    + unfold save_chat. now apply db_ok_insert_chat, db_ok_insert_chat.
    + now apply paired_save.
    + rewrite Hrows. intros r Hr. apply in_app_or in Hr as [Hr|[<-|[<-|[]]]].
      * now apply Hfk.
      * eexists. split; [exact Hrow|reflexivity].
      * eexists. split; [exact Hrow|reflexivity].
    + now exists h.
    + apply List.Forall_app. split; [exact Hh|].
      constructor; [|constructor]. right. now eexists _, _.
Qed.

Lemma world_ok_initial : world_ok initial_world.
Proof.
  unfold world_ok, initial_world. cbn [w_db w_session user history].
  split; [apply db_ok_fresh|]. split; [reflexivity|].
  split; [intros r []|]. split; [reflexivity|constructor].
Qed.

(** X13.  In every state a browser session reaches from a fresh
    database, whatever the model answers: the tables have the shape of
    X9, every chat row belongs to an account of the [users] table, the
    user of the session is such an account, a session without user has
    no history, and every record of the session history has one of the
    two shapes the program builds. *)
Theorem X13_world_invariant steps : world_ok (run_session steps initial_world).
Proof.
  assert (H : forall w, world_ok w -> world_ok (run_session steps w)).
  { unfold run_session. induction steps as [|[E a] steps IH]; intros w Hw;
      cbn [fold_left]; [exact Hw|].
    apply IH. cbn [fst snd]. now apply world_ok_interact. }
  apply H, world_ok_initial.
Qed.

Lemma add_exchanges_ok_keys hs : forall context p,
  add_exchanges context hs = Ok p -> Forall (fun h => is_Some (h !! "response")) hs.
Proof.
  induction hs as [|h hs IH]; intros context p; [constructor|].
  cbn [add_exchanges]. destruct (getitem h "message") as [m|]; [|discriminate].
  unfold getitem. destruct (h !! "response") as [r|] eqn:Hr; [|discriminate].
  intros H. constructor; [now exists r|]. eapply IH, H.
Qed.

Lemma last_n_nonempty {A} (l : list A) n : l <> [] -> exists x, In x (last_n (S n) l).
Proof.
  intros Hne. unfold last_n.
  destruct (skipn (length l - S n) l) as [|x r] eqn:Hs; [|exists x; now left].
  apply (f_equal (@length A)) in Hs. rewrite length_skipn in Hs. cbn [length] in Hs.
  destruct l; [congruence|]. cbn [length] in Hs. lia.
Qed.

(** X14.  A session history that is not empty stops every Send: over
    records loaded from the store the prompt builder raises, over a
    record appended by an earlier Send the display loop raises before
    the handler is reached.  Nothing is saved and the session history
    stays as it is; a conversation is never continued. *)
Theorem X14_send_needs_empty_history E msg w :
  Forall program_record (history (w_session w)) ->
  history (w_session w) <> [] ->
  w_db (snd (interact E (Send msg) w)) = w_db w
  /\ w_session (snd (interact E (Send msg) w)) = w_session w.
Proof.
  intros Hrec Hne. pose proof (interact_transition E (Send msg) w) as Ht.
  remember (w_db (snd (interact E (Send msg) w))) as db' eqn:Hdb.
  remember (w_session (snd (interact E (Send msg) w))) as s' eqn:Hs.
  clear Hdb Hs. remember (Send msg) as a eqn:Ha.
  destruct Ht as [a|u p usr Hout _|u p Hout|usr Hin|usr Hin
                  |msg' usr prompt reply Hin Ho Hk Ht Hb Hg];
    try discriminate; [now split|exfalso].
  destruct (last_n_nonempty (history (w_session w)) 2 Hne) as (h & Hh).
  rewrite build_context_some in Hb.
  destruct (add_exchanges _ (last_n 3 (history (w_session w)))) as [c|] eqn:Hadd;
    [|discriminate].
  apply add_exchanges_ok_keys in Hadd.
  rewrite List.Forall_forall in Hadd, Hk, Hrec.
  specialize (Hadd h Hh). apply in_last_n in Hh.
  specialize (Hk h Hh). specialize (Hrec h Hh).
  destruct Hrec as [(r & ->)|(m & p & ->)].
  - destruct Hadd as (v & Hv). discriminate.
  - destruct Hk as (v & Hv). discriminate.
Qed.

Lemma X14_send_needs_empty_history_witness :
  Forall program_record demo_history
  /\ demo_history <> []
  /\ w_db (snd (interact demo_env (Send (lit "more"))
                  (World alice_db (Session (Some (UserInfo 1 (lit "alice"))) true demo_history) [])))
     = alice_db
  /\ w_session (snd (interact demo_env (Send (lit "more"))
                       (World alice_db (Session (Some (UserInfo 1 (lit "alice"))) true demo_history) [])))
     = Session (Some (UserInfo 1 (lit "alice"))) true demo_history.
Proof.
  assert (H1 : Forall program_record demo_history).
  { rewrite demo_history_records.
    constructor; [left; eexists (ChatRow 1 1 _ _ _); reflexivity|].
    constructor; [left; eexists (ChatRow 2 1 _ _ _); reflexivity|constructor]. }
  assert (H2 : demo_history <> []) by (rewrite demo_history_records; discriminate).
  split; [exact H1|]. split; [exact H2|].
  exact (X14_send_needs_empty_history demo_env (lit "more")
           (World alice_db (Session (Some (UserInfo 1 (lit "alice"))) true demo_history) [])
           H1 H2).
Defined.

(** X15.  With the chat open and an empty history, a message that is
    not blank is answered and saved once, with the reply stripped; the
    run that [st.rerun()] starts then stops in the display loop with
    [KeyError] for "is_user", on the exchange just appended. *)
Theorem X15_first_send E msg db usr log reply :
  truthy (strip msg) = true ->
  generate_content E (prompt_of [] msg) = Ok reply ->
  let welcome := SidebarWrite ([128075] ++ lit " Welcome, " ++ username usr) in
  let popup := Markdown (lit "<div class=" ++ quote ++ lit "chat-popup" ++ quote ++ lit ">") in
  let title := Markdown (lit "### CareerBot Chat") in
  interact E (Send msg) (World db (Session (Some usr) true []) log)
  = (Raise (KeyError "is_user"),
     World (save_chat db (stamps E) (id usr) msg (strip reply))
           (Session (Some usr) true [exchange_dict msg (strip reply)])
           (log ++ [welcome; popup; title;
                    Generate (prompt_of [] msg) (Ok reply);
                    App.SaveChat (id usr) msg (strip reply);
                    welcome; popup; title])).
Proof.
  intros Ht Hg welcome popup title.
  unfold interact, script, chat_popup, send_handler, get_response.
  unfold bind, get_session, put_session, emit, ret, lift, get_db, put_db,
    rerun, raise, session_user_id.
  cbn [w_db w_session w_log user chat_open history display_history].
  unfold ret. rewrite Ht.
  cbn [w_db w_session w_log user chat_open history].
  rewrite (proj2 (build_context_empty msg)), Hg.
  cbn [w_db w_session w_log user chat_open history app].
  cbn [display_history]. unfold bind at 1, lift at 1.
  rewrite getitem_exchange_is_user.
  subst welcome popup title. rewrite <- !app_assoc. reflexivity.
Qed.

Lemma X15_first_send_witness :
  interact demo_env (Send (lit "Hi"))
    (World alice_db (Session (Some (UserInfo 1 (lit "alice"))) true []) [])
  = (Raise (KeyError "is_user"),
     World (save_chat alice_db (stamps demo_env) 1 (lit "Hi") (strip (lit " Consider biotechnology. ")))
           (Session (Some (UserInfo 1 (lit "alice"))) true
                    [exchange_dict (lit "Hi") (strip (lit " Consider biotechnology. "))])
           ([] ++ [SidebarWrite ([128075] ++ lit " Welcome, " ++ lit "alice");
                   Markdown (lit "<div class=" ++ quote ++ lit "chat-popup" ++ quote ++ lit ">");
                   Markdown (lit "### CareerBot Chat");
                   Generate (prompt_of [] (lit "Hi")) (Ok (lit " Consider biotechnology. "));
                   App.SaveChat 1 (lit "Hi") (strip (lit " Consider biotechnology. "));
                   SidebarWrite ([128075] ++ lit " Welcome, " ++ lit "alice");
                   Markdown (lit "<div class=" ++ quote ++ lit "chat-popup" ++ quote ++ lit ">");
                   Markdown (lit "### CareerBot Chat")])).
Proof.
  apply (X15_first_send demo_env (lit "Hi") alice_db (UserInfo 1 (lit "alice")) []
           (lit " Consider biotechnology. ")); reflexivity.
Defined.

(** X16.  The send handler returns normally exactly for a message that
    is empty or all whitespace; for any other message it ends in an
    exception: a [KeyError] of the prompt builder, the error of the
    model, or [st.rerun()]. *)
Theorem X16_send_returns_iff_blank E msg w :
  fst (send_handler E msg w) = Ok tt <-> forallb isspace msg = true.
Proof.
  split.
  - intros H. apply strip_nil_spaces.
    destruct (strip msg) as [|c r] eqn:Hs; [reflexivity|exfalso].
    revert H. unfold send_handler. rewrite Hs. cbn [truthy].
    unfold bind at 1, get_session at 1. unfold bind at 1.
    unfold get_response, bind at 1, lift at 1.
    destruct (build_context msg _) as [prompt|e]; [|discriminate].
    unfold bind at 1, emit at 1. unfold bind at 1, lift at 1.
    destruct (generate_content E prompt) as [reply|e]; [|discriminate].
    unfold ret at 1.
    unfold bind, get_session, put_session, lift, session_user_id, emit, get_db, put_db,
      rerun, raise.
    cbn [w_db w_session w_log user chat_open history].
    destruct (user (w_session w)); discriminate.
  - intros H. now rewrite send_handler_blank.
Qed.

(** X17.  Logout clears the user and the session history and keeps the
    database and the open or closed state of the chat; the run that
    follows finds no user and writes nothing. *)
Theorem X17_logout E db usr open hist log :
  interact E Logout (World db (Session (Some usr) open hist) log)
  = (Ok tt,
     World db (Session None open [])
           (log ++ [SidebarWrite ([128075] ++ lit " Welcome, " ++ username usr);
                    Success (lit "Logged out successfully!")])).
Proof.
  unfold interact, script, logout_handler.
  unfold bind, get_session, put_session, emit, ret, rerun, raise.
  cbn [w_db w_session w_log user chat_open history].
  now rewrite <- app_assoc.
Qed.

(** X18.  Over a history of exchanges, the prompt holds the last three
    of them and nothing of what came before: whatever precedes three
    exchanges, the prompt is the preamble, those three as "User:" and
    "Assistant:" lines, and the new message with the open "Assistant:". *)
Theorem X18_prompt_window older a b c msg :
  build_context msg
    (Some (map (fun ex => exchange_dict (fst ex) (snd ex)) (older ++ [a; b; c])))
  = Ok (prompt_of [a; b; c] msg).
Proof.
  rewrite build_context_exchanges. f_equal. f_equal.
  unfold last_n. rewrite length_app. cbn [length].
  replace (length older + 3 - 3)%nat with (length older + 0)%nat by lia.
  rewrite skipn_app, Nat.add_0_r, skipn_all. cbn [app].
  now replace (length older - length older)%nat with 0%nat by lia.
Qed.

Lemma filter_none {A} (f : A -> bool) l :
  (forall x, In x l -> f x = false) -> List.filter f l = [].
Proof.
  induction l as [|x l IH]; intros H; cbn [List.filter]; [reflexivity|].
  rewrite (H x (or_introl eq_refl)). apply IH. intros; apply H; now right.
Qed.

(** X19.  Sign-up, then login.  In a state the program can reach, with
    nobody logged in, a sign-up that [create_user] accepts followed by a
    login with the same username and password logs that account in: the
    session user is the new account, with the next rowid, and its
    history is empty. *)
Theorem X19_signup_then_login E1 E2 w u p db' :
  world_ok w ->
  user (w_session w) = None ->
  create_user (w_db w) u p = (db', true) ->
  let w2 := run_session [(E1, SignUp u p); (E2, Login u p)] w in
  w_db w2 = db'
  /\ w_session w2
     = Session (Some (UserInfo (Z.of_nat (S (length (users (w_db w))))) u))
               (chat_open (w_session w)) [].
Proof.
  intros (Hdb & _ & Hfk & _ & _) Hout Hc w2.
  destruct w as [db [usr open hist] log]. cbn [w_db w_session user chat_open] in *.
  subst usr.
  pose proof Hc as Hc'. apply create_user_true in Hc' as (bytes & Henc & Hfresh & Hdb').
  destruct Hdb as (Hu & Hus & _).
  rewrite Hu, Hus, next_rowid_upto in Hdb'.
  assert (Hh : hash_password p = Ok (Sha256.hexdigest bytes))
    by (unfold hash_password; now rewrite Henc).
  assert (Hfind : find (has_username u) (users db')
                  = Some (UserRow (Z.of_nat (S (length (users db)))) u (Sha256.hexdigest bytes))).
  { rewrite Hdb'. cbn [users]. now apply find_app_new. }
  pose proof (authenticate_found db' u p _ _ (create_user_bindable _ _ _ _ Hc) Hfind Hh) as Ha.
  cbn [u_password_hash u_id u_username] in Ha.
  rewrite bool_decide_eq_true_2 in Ha by reflexivity.
  assert (Hhist : get_chat_history db' (Z.of_nat (S (length (users db)))) = []).
  { unfold get_chat_history. rewrite filter_none; [reflexivity|].
    rewrite Hdb'. cbn [chat_history]. intros r Hr.
    destruct (Hfk r Hr) as (x & Hx & Hid). apply Z.eqb_neq. rewrite <- Hid.
    assert (Hin : In (u_id x) (ids_upto (length (users db))))
      by (rewrite <- Hu; now apply in_map).
    apply ids_upto_le in Hin. lia. }
  subst w2. unfold run_session. cbn [fold_left fst snd].
  assert (H1 : interact E1 (SignUp u p) (World db (Session None open hist) log)
               = (Ok tt, World db' (Session None open hist)
                               (log ++ [Success (lit "Account created! Please login.")]))).
  { unfold interact, script, signup_handler, bind, get_session, get_db, put_db, emit, ret.
    cbn [w_db w_session w_log user]. rewrite Hc. reflexivity. }
  rewrite H1. cbn [snd].
  unfold interact.
  assert (H2 : script E2 (Login u p)
                 (World db' (Session None open hist)
                        (log ++ [Success (lit "Account created! Please login.")]))
               = (Raise RerunException,
                  World db' (Session (Some (UserInfo (Z.of_nat (S (length (users db)))) u)) open [])
                        ((log ++ [Success (lit "Account created! Please login.")])
                           ++ [Success (lit "Logged in!")]))).
  { unfold script, login_handler, bind, get_session, get_db, lift.
    cbn [w_db w_session w_log user]. rewrite Ha.
    unfold bind, get_session, put_session, emit, rerun, raise.
    cbn [w_db w_session w_log user chat_open history id]. now rewrite Hhist. }
  rewrite H2.
  match goal with |- context [script E2 NoAction (World ?d ?s ?l)] =>
    destruct (script_no_action E2 d s l) as (r & evs & -> & _)
  end.
  cbn [snd w_db w_session]. now split.
Qed.

Lemma X19_signup_then_login_witness :
  let w2 := run_session [(demo_env, SignUp (lit "alice") (lit "pw123"));
                         (demo_env, Login (lit "alice") (lit "pw123"))] initial_world in
  w_db w2 = alice_db
  /\ w_session w2
     = Session (Some (UserInfo (Z.of_nat (S (length (users (w_db initial_world))))) (lit "alice")))
               (chat_open (w_session initial_world)) [].
Proof.
  apply (X19_signup_then_login demo_env demo_env initial_world (lit "alice") (lit "pw123") alice_db).
  - exact world_ok_initial.
  - reflexivity.
  - vm_compute. reflexivity.
Defined.

(** X20.  A wrong password for an existing username is answered like an
    unknown username: the login handler writes "Invalid login" and
    changes nothing else.  (Should the table hold a username that
    cannot be bound, which no sign-up stores, the SELECT raises
    [UnicodeEncodeError] before any row is read.) *)
Theorem X20_wrong_password E w u p row digest :
  user (w_session w) = None ->
  find (has_username u) (users (w_db w)) = Some row ->
  hash_password p = Ok digest ->
  digest <> u_password_hash row ->
  interact E (Login u p) w
  = (if bindable u
     then (Ok tt, World (w_db w) (w_session w) (w_log w ++ [Error (lit "Invalid login")]))
     else (Raise UnicodeEncodeError, w)).
Proof.
  intros Hout Hf Hh Hne.
  destruct w as [db [usr open hist] log]. cbn [w_db w_session w_log user] in *. subst usr.
  unfold interact, script, bind, get_session, login_handler, bind, get_db, lift.
  cbn [w_db w_session w_log user].
  destruct (bindable u) eqn:Hb.
  - pose proof (authenticate_found _ _ _ _ _ Hb Hf Hh) as Ha.
    rewrite bool_decide_eq_false_2 in Ha by congruence.
    rewrite Ha. reflexivity.
  - now rewrite (authenticate_unbindable _ _ _ Hb).
Qed.

Lemma X20_wrong_password_witness :
  interact demo_env (Login (lit "alice") (lit "abc")) (World alice_db (Session None false []) [])
  = (Ok tt, World alice_db (Session None false []) ([] ++ [Error (lit "Invalid login")])).
Proof.
  apply (X20_wrong_password demo_env (World alice_db (Session None false []) [])
           (lit "alice") (lit "abc")
           (UserRow 1 (lit "alice")
              (lit "23d47445adfb8991789b459b6ba1b974d727d310aa9d80b7c2875b9430c0ba25"))
           (lit "ba7816bf8f01cfea414140de5dae2223b00361a396177a9cb410ff61f20015ad")).
  - reflexivity.
  - vm_compute. reflexivity.
  - vm_compute. reflexivity.
  - vm_compute. discriminate.
Defined.

(** X21.  A login that [authenticate_user] accepts loads the stored
    history of the account into the session, and the run that follows
    shows, when the chat is open, one bubble for each stored record of
    that account by increasing rowid, without raising. *)
Theorem X21_login_shows_history E db open hist log u p usr :
  authenticate_user db u p = Ok (Some usr) ->
  let rows := order_by_id (List.filter (fun r => c_user_id r =? id usr) (chat_history db)) in
  let welcome := SidebarWrite ([128075] ++ lit " Welcome, " ++ username usr) in
  let popup := Markdown (lit "<div class=" ++ quote ++ lit "chat-popup" ++ quote ++ lit ">") in
  let title := Markdown (lit "### CareerBot Chat") in
  interact E (Login u p) (World db (Session None open hist) log)
  = (Ok tt,
     World db (Session (Some usr) open (map row_dict rows))
           (log ++ [Success (lit "Logged in!"); welcome]
                ++ (if open
                    then [popup; title] ++ map row_bubble rows ++ [Markdown (lit "</div>")]
                    else []))).
Proof.
  intros Ha rows welcome popup title.
  unfold interact.
  assert (H1 : script E (Login u p) (World db (Session None open hist) log)
               = (Raise RerunException,
                  World db (Session (Some usr) open (map row_dict rows))
                        (log ++ [Success (lit "Logged in!")]))).
  { unfold script, login_handler, bind, get_session, get_db, lift.
    cbn [w_db w_session w_log user]. rewrite Ha.
    unfold bind, get_session, put_session, emit, rerun, raise.
    cbn [w_db w_session w_log user chat_open history]. reflexivity. }
  rewrite H1.
  unfold script, bind, get_session, emit, ret.
  cbn [w_db w_session w_log user chat_open history].
  destruct open.
  - unfold chat_popup, bind, get_session, emit, ret.
    cbn [w_db w_session w_log history].
    rewrite display_history_rows. cbn [w_db w_session w_log].
    subst welcome popup title. rewrite <- !app_assoc. reflexivity.
  - subst welcome. rewrite app_nil_r, <- app_assoc. reflexivity.
Qed.

Lemma X21_login_shows_history_witness :
  interact demo_env (Login (lit "alice") (lit "pw123"))
           (World alice_db (Session None false []) [])
  = (Ok tt,
     World alice_db
           (Session (Some (UserInfo 1 (lit "alice"))) false
              (map row_dict
                 (order_by_id
                    (List.filter (fun r => c_user_id r =? id (UserInfo 1 (lit "alice")))
                                 (chat_history alice_db)))))
           ([] ++ [Success (lit "Logged in!");
                   SidebarWrite ([128075] ++ lit " Welcome, " ++ username (UserInfo 1 (lit "alice")))]
               ++ [])).
Proof.
  apply (X21_login_shows_history demo_env alice_db false [] []
           (lit "alice") (lit "pw123") (UserInfo 1 (lit "alice"))).
  vm_compute. reflexivity.
Defined.

End Interactions.
